(** * Get-Pole-Vector: the pole-vector position of a three-joint chain

    A shallow embedding of [get_pole_vector.py] (a Maya script) and the
    properties of its three functions [get_pole_vec_pos], [place_locator]
    and [main].

    The script computes on Python floats and on Maya's [MVector] (three
    doubles).  The embedding is written once over an interface [Scalar] of
    the arithmetic the script uses, and read at two instances:
    - [float] : IEEE 754 binary64, what the interpreter runs: the
                program;
    - [R]     : the exact real numbers, the arithmetic of the geometry the
                script aims at.  It is not the program: it is the
                reference a binary64 run is compared with, through the
                numbers its floats stand for ([exact]).

    What is proved of the program is proved over every [Scalar], or at
    [float]; where a law of the geometry holds of a binary64 run only as
    far as the run does not round, the theorem says so ([runs_unrounded])
    and a run that breaks the law is given. *)

From Stdlib Require Import Floats.
From Stdlib Require Import Reals Lra Psatz.
From Stdlib Require Import ZArith Bool List String DecimalString DecimalNat.
From Stdlib Require Import QArith Qreals.
From Stdlib Require Finite.
Import ListNotations.
Close Scope Q_scope.

Set Implicit Arguments.
Set Warnings "-inexact-float".

(** ** Scalars *)

(** The operations of a Python float / C++ double that the script reaches:
    [+ - *] and [/] inside [MVector], [sqrt] inside [MVector.length], the
    test [== 0.0], and the constant of the literal [1] in [main]. *)
Class Scalar (F : Type) : Type := {
  fzero : F;
  fone : F;
  fadd : F -> F -> F;
  fsub : F -> F -> F;
  fmul : F -> F -> F;
  fdiv : F -> F -> F;
  fsqrt : F -> F;
  is_zero : F -> bool
}.

(** binary64: every operation is the primitive one; [== 0.0] is IEEE
    equality, so both signed zeros are zero and NaN is not. *)
#[global] Instance float_Scalar : Scalar float := {
  fzero := 0%float;
  fone := 1%float;
  fadd := PrimFloat.add;
  fsub := PrimFloat.sub;
  fmul := PrimFloat.mul;
  fdiv := PrimFloat.div;
  fsqrt := PrimFloat.sqrt;
  is_zero := fun a => PrimFloat.eqb a 0%float
}.

(** The exact reals: no rounding, no underflow, no overflow.  The script
    never runs on them; they carry the numbers that floats stand for. *)
#[global] Instance R_Scalar : Scalar R := {
  fzero := 0%R;
  fone := 1%R;
  fadd := Rplus;
  fsub := Rminus;
  fmul := Rmult;
  fdiv := Rdiv;
  fsqrt := sqrt;
  is_zero := fun a => if Req_dec_T a 0%R then true else false
}.

(** ** Exceptions *)

(** What the script can raise: Python's [ZeroDivisionError] (a float
    divided by [0.0]), [IndexError] (indexing past the end of a list),
    [TypeError] (a call with the wrong number of arguments), and the
    [RuntimeError] that a failing [cmds] command raises, [cmds.error]
    with the message it was given. *)
Inductive Exn : Type :=
| ZeroDivisionError
| IndexError
| TypeError
| RuntimeError (msg : string).

Inductive result (A : Type) : Type :=
| Ok (a : A)
| Raise (e : Exn).

Arguments Ok {A} a.
Arguments Raise {A} e.

Section Model.

Context {F : Type} {SF : Scalar F}.

(** [x / y] on two Python floats: a zero divisor raises. *)
Definition truediv (a b : F) : result F :=
  if is_zero b then Raise ZeroDivisionError else Ok (fdiv a b).

(** ** MVector *)

(** A position as the host hands it over: [[x, y, z]]. *)
Definition xyz : Type := (F * F * F)%type.

(** [maya.OpenMaya.MVector]: three doubles. *)
Record MVector : Type := mkMVector { vx : F; vy : F; vz : F }.

(** [MVector] built from the three numbers of a position. *)
Definition MVector_of (pos : xyz) : MVector :=
  let '(a, b, c) := pos in mkMVector a b c.

(** [a - b] *)
Definition vsub (a b : MVector) : MVector :=
  mkMVector (fsub (vx a) (vx b)) (fsub (vy a) (vy b)) (fsub (vz a) (vz b)).

(** [a + b] *)
Definition vadd (a b : MVector) : MVector :=
  mkMVector (fadd (vx a) (vx b)) (fadd (vy a) (vy b)) (fadd (vz a) (vz b)).

(** [a * b] on two vectors: the dot product, a float. *)
Definition dot (a b : MVector) : F :=
  fadd (fadd (fmul (vx a) (vx b)) (fmul (vy a) (vy b))) (fmul (vz a) (vz b)).

(** [a * s] on a vector and a float. *)
Definition vscale (a : MVector) (s : F) : MVector :=
  mkMVector (fmul (vx a) s) (fmul (vy a) s) (fmul (vz a) s).

(** [a / s] on a vector and a float (a C++ division: it never raises). *)
Definition vdiv (a : MVector) (s : F) : MVector :=
  mkMVector (fdiv (vx a) s) (fdiv (vy a) s) (fdiv (vz a) s).

(** [a.length()] *)
Definition length (a : MVector) : F := fsqrt (dot a a).

(** What [MVector.normal] answers for a vector of length zero is the
    library's business, not the script's: it is kept as a parameter.  The
    method takes no status argument, so it cannot raise. *)
Class NormalOfNull : Type := normal_of_null : MVector -> MVector.

Context {NN : NormalOfNull}.

(** [a.normal()]: the vector over its length. *)
Definition normal (a : MVector) : MVector :=
  if is_zero (length a) then normal_of_null a else vdiv a (length a).

(** ** The host: a Maya scene *)

Inductive NodeType : Type := Joint | Locator | Transform.

Definition NodeType_eqb (a b : NodeType) : bool :=
  match a, b with
  | Joint, Joint | Locator, Locator | Transform, Transform => true
  | _, _ => false
  end.

(** A node of the scene: its name, its type, and its world-space position
    (rotate pivot and translation are not told apart). *)
Record Node : Type := mkNode {
  node_name : string;
  node_type : NodeType;
  node_pos : xyz
}.

(** The scene: its nodes, the current selection (names, in selection
    order), and the lines written by [MGlobal.displayInfo], newest first.
    A line [f"{x}, {y}, {z}"] is kept as the three numbers it prints. *)
Record Scene : Type := mkScene {
  nodes : list Node;
  selection : list string;
  info : list xyz
}.

(** A command: it reads and writes the scene and returns a value or
    raises.  What was done before a raise stays done. *)
Definition Maya (A : Type) : Type := Scene -> result A * Scene.

Definition ret {A} (a : A) : Maya A := fun s => (Ok a, s).

Definition raise {A} (e : Exn) : Maya A := fun s => (Raise e, s).

Definition lift {A} (r : result A) : Maya A := fun s => (r, s).

Definition bind {A B} (m : Maya A) (f : A -> Maya B) : Maya B :=
  fun s => match m s with
           | (Ok a, s') => f a s'
           | (Raise e, s') => (Raise e, s')
           end.

Notation "x <- m ;; k" := (bind m (fun x => k))
  (at level 61, m at next level, right associativity).
Notation "m ;;; k" := (bind m (fun _ => k))
  (at level 61, right associativity).

(** [[f(x) for x in xs]] *)
Fixpoint for_each {A B} (f : A -> Maya B) (xs : list A) : Maya (list B) :=
  match xs with
  | [] => ret []
  | x :: xs' => y <- f x ;; ys <- for_each f xs' ;; ret (y :: ys)
  end.

(** [xs[0]] *)
Definition item0 {A} (xs : list A) : Maya A :=
  match xs with
  | [] => raise IndexError
  | x :: _ => ret x
  end.

Definition find_node (name : string) (s : Scene) : option Node :=
  find (fun n => String.eqb (node_name n) name) (nodes s).

Definition no_object : Exn := RuntimeError "No object matches name".

(** [MGlobal.displayInfo(f"{v.x}, {v.y}, {v.z}")] *)
Definition displayInfo (v : MVector) : Maya unit :=
  fun s => (Ok tt, mkScene (nodes s) (selection s) ((vx v, vy v, vz v) :: info s)).

(** [cmds.ls(selection=True, type=ty)]: the selected nodes of that type,
    in selection order. *)
Definition selected (ty : NodeType) (s : Scene) : list string :=
  filter (fun name =>
            match find_node name s with
            | Some n => NodeType_eqb (node_type n) ty
            | None => false
            end) (selection s).

Definition ls_selection (ty : NodeType) : Maya (list string) :=
  fun s => (Ok (selected ty s), s).

(** [cmds.error(msg)] *)
Definition error (msg : string) : Maya unit := raise (RuntimeError msg).

(** [cmds.xform(name, query=True, rotatePivot=True, worldSpace=True)] *)
Definition xform_query (name : string) : Maya xyz :=
  fun s => match find_node name s with
           | Some n => (Ok (node_pos n), s)
           | None => (Raise no_object, s)
           end.

(** The name Maya gives the next locator: [locator1], [locator2], ...,
    the first one that is free. *)
Definition locator_name (n : nat) : string :=
  "locator" ++ NilEmpty.string_of_uint (Nat.to_uint n).

Fixpoint first_free (used : list string) (n fuel : nat) : string :=
  match fuel with
  | O => locator_name n
  | S fuel' =>
      if existsb (String.eqb (locator_name n)) used
      then first_free used (S n) fuel'
      else locator_name n
  end.

(** [cmds.spaceLocator()]: a new locator at the origin; the list of the
    names created. *)
Definition spaceLocator : Maya (list string) :=
  fun s =>
    let used := map node_name (nodes s) in
    let name := first_free used 1 (List.length used) in
    (Ok [name],
     mkScene (nodes s ++ [mkNode name Locator (fzero, fzero, fzero)])
             (selection s) (info s)).

(** [cmds.xform(name, translation=pos, worldSpace=True)] *)
Definition xform_translation (name : string) (pos : xyz) : Maya unit :=
  fun s => match find_node name s with
           | Some _ =>
               (Ok tt,
                mkScene (map (fun n => if String.eqb (node_name n) name
                                       then mkNode (node_name n) (node_type n) pos
                                       else n) (nodes s))
                        (selection s) (info s))
           | None => (Raise no_object, s)
           end.

(** [cmds.select(name)]: the selection becomes that one node. *)
Definition select (name : string) : Maya unit :=
  fun s => match find_node name s with
           | Some _ => (Ok tt, mkScene (nodes s) [name] (info s))
           | None => (Raise no_object, s)
           end.

(** ** The script *)

(** [get_pole_vec_pos(root_pos, mid_pos, end_pos, multiplier)] *)
Definition get_pole_vec_pos (root_pos mid_pos end_pos : xyz) (multiplier : F)
  : Maya MVector :=
  let root_vec := MVector_of root_pos in
  let mid_vec := MVector_of mid_pos in
  let end_vec := MVector_of end_pos in
  let line := vsub end_vec root_vec in
  let source_point := vsub mid_vec root_vec in
  closest_point_scale_val <-
    lift (truediv (dot line source_point) (dot line line)) ;;
  let closest_mid_point :=
    vadd (vscale line closest_point_scale_val) root_vec in
  let root_to_mid_mag := length (vsub mid_vec root_vec) in
  let mid_to_end_mag := length (vsub end_vec mid_vec) in
  let total_mag := fmul (fadd root_to_mid_mag mid_to_end_mag) multiplier in
  let pole_vector :=
    vadd (vscale (normal (vsub mid_vec closest_mid_point)) total_mag) mid_vec in
  displayInfo pole_vector ;;;
  ret pole_vector.

(** [place_locator(position)] *)
Definition place_locator (position : MVector) : Maya string :=
  created <- spaceLocator ;;
  locator <- item0 created ;;
  xform_translation locator (vx position, vy position, vz position) ;;;
  select locator ;;;
  ret locator.

(** The call of [get_pole_vec_pos] on the unpacked list of positions: it
    takes exactly three of them. *)
Definition get_pole_vec_pos_star (positions : list xyz) (multiplier : F)
  : Maya MVector :=
  match positions with
  | [root_pos; mid_pos; end_pos] =>
      get_pole_vec_pos root_pos mid_pos end_pos multiplier
  | _ => raise TypeError
  end.

(** [main()] *)
Definition main : Maya unit :=
  joints <- ls_selection Joint ;;
  (if negb (Nat.eqb (List.length joints) 3)
   then error "Select three joints"
   else ret tt) ;;;
  positions <- for_each xform_query joints ;;
  pole <- get_pole_vec_pos_star positions fone ;;
  place_locator pole ;;;
  ret tt.

(** ** The locals of [get_pole_vec_pos], as functions of its arguments *)

Definition line_of (root_pos end_pos : xyz) : MVector :=
  vsub (MVector_of end_pos) (MVector_of root_pos).

Definition source_point_of (root_pos mid_pos : xyz) : MVector :=
  vsub (MVector_of mid_pos) (MVector_of root_pos).

Definition closest_point_scale_val_of (root_pos mid_pos end_pos : xyz)
  : result F :=
  truediv (dot (line_of root_pos end_pos) (source_point_of root_pos mid_pos))
          (dot (line_of root_pos end_pos) (line_of root_pos end_pos)).

Definition closest_mid_point_of (root_pos end_pos : xyz) (t : F) : MVector :=
  vadd (vscale (line_of root_pos end_pos) t) (MVector_of root_pos).

Definition total_mag_of (root_pos mid_pos end_pos : xyz) (multiplier : F) : F :=
  fmul (fadd (length (vsub (MVector_of mid_pos) (MVector_of root_pos)))
             (length (vsub (MVector_of end_pos) (MVector_of mid_pos))))
       multiplier.

Definition offset_dir_of (root_pos mid_pos end_pos : xyz) (t : F) : MVector :=
  normal (vsub (MVector_of mid_pos) (closest_mid_point_of root_pos end_pos t)).

Definition pole_vector_of (root_pos mid_pos end_pos : xyz) (multiplier t : F)
  : MVector :=
  vadd (vscale (offset_dir_of root_pos mid_pos end_pos t)
               (total_mag_of root_pos mid_pos end_pos multiplier))
       (MVector_of mid_pos).

(** The scene after [displayInfo] has printed [v]. *)
Definition printed (v : MVector) (s : Scene) : Scene :=
  mkScene (nodes s) (selection s) ((vx v, vy v, vz v) :: info s).

(** The locators of a scene: the markers placed so far. *)
Definition locators (s : Scene) : list Node :=
  filter (fun n => NodeType_eqb (node_type n) Locator) (nodes s).

(** A scene with nothing in it. *)
Definition empty_scene : Scene := mkScene [] [] [].

(** ** The formula of the specification, in the arithmetic at hand

    [pole = mid + normalize(mid - closest) * total_length], written from
    the words of the specification with the operations of the
    arithmetic, to be compared with what the function computes. *)

(** A vector over its length. *)
Definition unit_vector (v : MVector) : MVector := vdiv v (length v).

(** [closest = root + line * t] with [t = (line . source) / (line . line)],
    [line = end - root] and [source = mid - root]. *)
Definition formula_closest (root mid end_ : MVector) : MVector :=
  vadd root
       (vscale (vsub end_ root)
               (fdiv (dot (vsub end_ root) (vsub mid root))
                     (dot (vsub end_ root) (vsub end_ root)))).

(** [total_length = (|mid - root| + |end - mid|) * multiplier] *)
Definition formula_total_length (root mid end_ : MVector) (multiplier : F) : F :=
  fmul (fadd (length (vsub mid root)) (length (vsub end_ mid))) multiplier.

Definition formula_pole (root mid end_ : MVector) (multiplier : F) : MVector :=
  vadd mid
       (vscale (unit_vector (vsub mid (formula_closest root mid end_)))
               (formula_total_length root mid end_ multiplier)).

(** The three numbers of a vector, as [place_locator] lists them. *)
Definition coords (v : MVector) : xyz := (vx v, vy v, vz v).

(** The name the next locator gets in a scene. *)
Definition next_locator (s : Scene) : string :=
  first_free (map node_name (nodes s)) 1
             (List.length (map node_name (nodes s))).

(** The scene with one more locator, placed at [p] and selected. *)
Definition with_locator (name : string) (p : xyz) (s : Scene) : Scene :=
  mkScene (nodes s ++ [mkNode name Locator p]) [name] (info s).

(** The position of a node, by name. *)
Definition position_of (name : string) (s : Scene) : option xyz :=
  option_map node_pos (find_node name s).

(** The value a command returns from a scene, and the scene it leaves. *)
Definition value {A} (m : Maya A) (s : Scene) : result A := fst (m s).

Definition after {A} (m : Maya A) (s : Scene) : Scene := snd (m s).

End Model.

Arguments xyz F : clear implicits.
Arguments MVector F : clear implicits.
Arguments Node F : clear implicits.
Arguments Scene F : clear implicits.
Arguments NormalOfNull F : clear implicits.
Arguments Maya F A : clear implicits.
Arguments empty_scene {F}.

(** The answer used when the script is run here: a null vector is left as
    it is, which is what Maya's normalisation does with a vector it cannot
    scale.  No theorem below depends on this choice unless it says so. *)
#[global] Instance maya_normal_of_null {F : Type} : NormalOfNull F :=
  fun v => v.

(** ** Geometry in exact arithmetic *)

(** The projection scalar the function divides out, when the axis is not
    null. *)
Definition scale_val (root_pos mid_pos end_pos : xyz R) : R :=
  (dot (line_of root_pos end_pos) (source_point_of root_pos mid_pos) /
   dot (line_of root_pos end_pos) (line_of root_pos end_pos))%R.

(** [p] lies on the line through [a] and [b]. *)
Definition on_line (a b p : MVector R) : Prop :=
  exists u : R, p = vadd a (vscale (vsub b a) u).

(** The inputs the algebraic laws are about: root and end apart, mid off
    the line through them. *)
Definition non_degenerate (root_pos mid_pos end_pos : xyz R) : Prop :=
  root_pos <> end_pos /\
  ~ on_line (MVector_of root_pos) (MVector_of end_pos) (MVector_of mid_pos).

(** ** binary64 helpers *)

(** Neither NaN nor an infinity. *)
Definition finite (a : float) : bool :=
  match Prim2SF a with
  | S754_zero _ | S754_finite _ _ _ => true
  | S754_infinity _ | S754_nan => false
  end.

(** A signed zero. *)
Definition zero_float (a : float) : Prop :=
  exists sign, Prim2SF a = S754_zero sign.

(** The number a float stands for, [+-m * 2^e], as a fraction; the zeros
    stand for [0], and so do, by convention, NaN and the infinities. *)
Definition exactQ (a : float) : Q :=
  match Prim2SF a with
  | S754_finite s m e =>
      (inject_Z (if s then Z.neg m else Z.pos m) * Qpower 2 e)%Q
  | _ => 0%Q
  end.

(** The same number among the reals. *)
Definition exact (a : float) : R := Q2R (exactQ a).

Definition exact_xyz (p : xyz float) : xyz R :=
  let '(a, b, c) := p in (exact a, exact b, exact c).

Definition exact_vec (v : MVector float) : MVector R :=
  mkMVector (exact (vx v)) (exact (vy v)) (exact (vz v)).

Definition finite_vec (v : MVector float) : bool :=
  finite (vx v) && finite (vy v) && finite (vz v).

(** The float [r] is finite and stands for the real [x]: said of the
    result of an operation and of the real result on the numbers its
    operands stand for, the operation has not rounded. *)
Definition exactly (r : float) (x : R) : Prop :=
  finite r = true /\ exact r = x.

Definition exactly_vec (r : MVector float) (x : MVector R) : Prop :=
  exactly (vx r) (vx x) /\ exactly (vy r) (vy x) /\ exactly (vz r) (vz x).

(** A run of [get_pole_vec_pos] in which nothing is rounded: statement by
    statement, each value the function computes is finite and is the real
    result on the numbers its operands stand for. *)
Definition runs_unrounded (root_pos mid_pos end_pos : xyz float)
    (multiplier : float) : Prop :=
  let root_vec := MVector_of root_pos in
  let mid_vec := MVector_of mid_pos in
  let end_vec := MVector_of end_pos in
  let line := vsub end_vec root_vec in
  let source_point := vsub mid_vec root_vec in
  let scale := fdiv (dot line source_point) (dot line line) in
  let closest_mid_point := vadd (vscale line scale) root_vec in
  let root_to_mid_len := length (vsub mid_vec root_vec) in
  let mid_to_end_len := length (vsub end_vec mid_vec) in
  let total_mag := fmul (fadd root_to_mid_len mid_to_end_len) multiplier in
  let offset := vsub mid_vec closest_mid_point in
  let direction := vdiv offset (length offset) in
  exactly_vec line (vsub (exact_vec end_vec) (exact_vec root_vec)) /\
  exactly_vec source_point (vsub (exact_vec mid_vec) (exact_vec root_vec)) /\
  exactly (dot line source_point)
          (dot (exact_vec line) (exact_vec source_point)) /\
  exactly (dot line line) (dot (exact_vec line) (exact_vec line)) /\
  exactly scale (exact (dot line source_point) / exact (dot line line)) /\
  exactly_vec (vscale line scale) (vscale (exact_vec line) (exact scale)) /\
  exactly_vec closest_mid_point
              (vadd (exact_vec (vscale line scale)) (exact_vec root_vec)) /\
  exactly root_to_mid_len (length (exact_vec (vsub mid_vec root_vec))) /\
  exactly_vec (vsub end_vec mid_vec)
              (vsub (exact_vec end_vec) (exact_vec mid_vec)) /\
  exactly mid_to_end_len (length (exact_vec (vsub end_vec mid_vec))) /\
  exactly (fadd root_to_mid_len mid_to_end_len)
          (exact root_to_mid_len + exact mid_to_end_len) /\
  exactly total_mag
          (exact (fadd root_to_mid_len mid_to_end_len) * exact multiplier) /\
  exactly_vec offset
              (vsub (exact_vec mid_vec) (exact_vec closest_mid_point)) /\
  exactly (length offset) (length (exact_vec offset)) /\
  exactly_vec direction
              (vdiv (exact_vec offset) (exact (length offset))) /\
  exactly_vec (vscale direction total_mag)
              (vscale (exact_vec direction) (exact total_mag)) /\
  exactly_vec (vadd (vscale direction total_mag) mid_vec)
              (vadd (exact_vec (vscale direction total_mag))
                    (exact_vec mid_vec)).

(** NaN. *)
Definition is_nan_float (a : float) : bool :=
  match Prim2SF a with
  | S754_nan => true
  | _ => false
  end.

(** Some coordinate of a position is NaN. *)
Definition has_nan (p : xyz float) : bool :=
  let '(a, b, c) := p in is_nan_float a || is_nan_float b || is_nan_float c.

(** Every coordinate of a vector is NaN. *)
Definition nan_vec (v : MVector float) : bool :=
  is_nan_float (vx v) && is_nan_float (vy v) && is_nan_float (vz v).

Definition finite_xyz (p : xyz float) : bool :=
  let '(a, b, c) := p in finite a && finite b && finite c.

(** [|a - b| <= tol] *)
Definition within (tol a b : float) : bool :=
  PrimFloat.leb (PrimFloat.abs (PrimFloat.sub a b)) tol.

(** ** A scene to run [main] on *)

(** A rig of three joints at the positions of the scenario, and a
    locator left from before. *)
Definition rig : list (Node float) :=
  [mkNode "shoulder" Joint (0, 0, 0)%float;
   mkNode "elbow" Joint (0, 1, 0)%float;
   mkNode "wrist" Joint (2, 0, 0)%float;
   mkNode "locator1" Locator (5, 5, 5)%float].

(** The rig with its three joints selected in chain order. *)
Definition rig_selected : Scene float :=
  mkScene rig ["shoulder"; "elbow"; "wrist"]%string [].

(** A folded chain: the wrist brought back onto the shoulder. *)
Definition folded_selected : Scene float :=
  mkScene [mkNode "shoulder" Joint (0, 0, 0)%float;
           mkNode "elbow" Joint (0, 1, 0)%float;
           mkNode "wrist" Joint (0, 0, 0)%float]
          ["shoulder"; "elbow"; "wrist"]%string [].

(** * What [get_pole_vec_pos] does, over any arithmetic *)

Section Generic.

Context {F : Type} {SF : Scalar F} {NN : NormalOfNull F}.

Implicit Types (root_pos mid_pos end_pos : xyz F) (s : Scene F).

(** The function in terms of its locals: the only way to fail is the
    division; otherwise the pole vector is printed and returned. *)
Lemma get_pole_vec_pos_eq root_pos mid_pos end_pos multiplier s :
  get_pole_vec_pos root_pos mid_pos end_pos multiplier s =
  match closest_point_scale_val_of root_pos mid_pos end_pos with
  | Ok t =>
      let p := pole_vector_of root_pos mid_pos end_pos multiplier t in
      (Ok p, printed p s)
  | Raise e => (Raise e, s)
  end.
Proof.
  unfold get_pole_vec_pos, closest_point_scale_val_of, bind, lift.
  fold (line_of root_pos end_pos) (source_point_of root_pos mid_pos).
  destruct (truediv _ _); reflexivity.
Qed.

Lemma get_pole_vec_pos_zero_axis root_pos mid_pos end_pos multiplier s :
  is_zero (dot (line_of root_pos end_pos) (line_of root_pos end_pos)) = true ->
  get_pole_vec_pos root_pos mid_pos end_pos multiplier s =
  (Raise ZeroDivisionError, s).
Proof.
  intros Hz. rewrite get_pole_vec_pos_eq.
  unfold closest_point_scale_val_of, truediv. rewrite Hz. reflexivity.
Qed.

Lemma get_pole_vec_pos_nonzero_axis root_pos mid_pos end_pos multiplier s :
  is_zero (dot (line_of root_pos end_pos) (line_of root_pos end_pos)) = false ->
  get_pole_vec_pos root_pos mid_pos end_pos multiplier s =
  let t := fdiv (dot (line_of root_pos end_pos) (source_point_of root_pos mid_pos))
                (dot (line_of root_pos end_pos) (line_of root_pos end_pos)) in
  let p := pole_vector_of root_pos mid_pos end_pos multiplier t in
  (Ok p, printed p s).
Proof.
  intros Hz. rewrite get_pole_vec_pos_eq.
  unfold closest_point_scale_val_of, truediv. rewrite Hz. reflexivity.
Qed.

(** C5, amended. Whether or not mid lies on the line through root and
    end, the function raises nothing of its own and falls back on no axis:
    when the squared length of the axis does not compare equal to zero it
    returns [mid + n0 * total_length] if the computed length of
    [mid - closest] compares equal to zero, [n0] being what
    [MVector.normal] answers for that vector, and
    [mid + (mid - closest) / |mid - closest| * total_length] if rounding
    has left it a length. *)
Theorem pole_whatever_the_offset root_pos mid_pos end_pos multiplier s :
  is_zero (dot (line_of root_pos end_pos) (line_of root_pos end_pos)) = false ->
  let t := fdiv (dot (line_of root_pos end_pos)
                     (source_point_of root_pos mid_pos))
                (dot (line_of root_pos end_pos) (line_of root_pos end_pos)) in
  let offset := vsub (MVector_of mid_pos)
                     (closest_mid_point_of root_pos end_pos t) in
  value (get_pole_vec_pos root_pos mid_pos end_pos multiplier) s =
  Ok (vadd (vscale (if is_zero (length offset)
                    then normal_of_null offset
                    else vdiv offset (length offset))
                   (total_mag_of root_pos mid_pos end_pos multiplier))
           (MVector_of mid_pos)).
Proof.
  intros Hz t offset. unfold value.
  rewrite get_pole_vec_pos_nonzero_axis by exact Hz. cbn [fst].
  unfold pole_vector_of, offset_dir_of, normal. fold t. fold offset.
  destruct (is_zero (length offset)); reflexivity.
Qed.

(** ** The formula of the specification *)

Section Commutative.

(** Addition takes its operands in either order: so it is in exact
    arithmetic and in binary64. *)
Hypothesis fadd_comm : forall a b : F, fadd a b = fadd b a.

Lemma vadd_swap (a b : MVector F) : vadd a b = vadd b a.
Proof.
  unfold vadd. rewrite (fadd_comm (vx a)), (fadd_comm (vy a)),
    (fadd_comm (vz a)). reflexivity.
Qed.

(** The closest point of the function is the closest point of the
    formula. *)
Lemma closest_is_formula_closest root_pos mid_pos end_pos :
  closest_mid_point_of root_pos end_pos
    (fdiv (dot (line_of root_pos end_pos) (source_point_of root_pos mid_pos))
          (dot (line_of root_pos end_pos) (line_of root_pos end_pos))) =
  formula_closest (MVector_of root_pos) (MVector_of mid_pos)
                  (MVector_of end_pos).
Proof. unfold closest_mid_point_of, formula_closest. apply vadd_swap. Qed.

(** The pole of the function is the pole of the formula, when the offset
    has a length. *)
Lemma pole_vector_of_formula root_pos mid_pos end_pos multiplier :
  is_zero (length (vsub (MVector_of mid_pos)
                        (formula_closest (MVector_of root_pos)
                                         (MVector_of mid_pos)
                                         (MVector_of end_pos)))) = false ->
  pole_vector_of root_pos mid_pos end_pos multiplier
    (fdiv (dot (line_of root_pos end_pos) (source_point_of root_pos mid_pos))
          (dot (line_of root_pos end_pos) (line_of root_pos end_pos))) =
  formula_pole (MVector_of root_pos) (MVector_of mid_pos)
               (MVector_of end_pos) multiplier.
Proof.
  intros Hlen. unfold pole_vector_of, offset_dir_of, normal.
  rewrite closest_is_formula_closest, Hlen. apply vadd_swap.
Qed.

(** C2, amended. Refinement of the formula of the specification, in any
    arithmetic whose addition commutes, binary64 included.  When the
    squared length of the axis compares equal to zero the function raises
    [ZeroDivisionError]; otherwise, when the computed length of
    [mid - closest] does not compare equal to zero, it returns exactly
    [mid + normalize(mid - closest) * total_length], operation for
    operation, the offset anchored at mid. *)
Theorem pole_follows_formula root_pos mid_pos end_pos multiplier s :
  (is_zero (dot (vsub (MVector_of end_pos) (MVector_of root_pos))
                (vsub (MVector_of end_pos) (MVector_of root_pos))) = true ->
   value (get_pole_vec_pos root_pos mid_pos end_pos multiplier) s =
   Raise ZeroDivisionError) /\
  (is_zero (dot (vsub (MVector_of end_pos) (MVector_of root_pos))
                (vsub (MVector_of end_pos) (MVector_of root_pos))) = false ->
   is_zero (length (vsub (MVector_of mid_pos)
                         (formula_closest (MVector_of root_pos)
                                          (MVector_of mid_pos)
                                          (MVector_of end_pos)))) = false ->
   value (get_pole_vec_pos root_pos mid_pos end_pos multiplier) s =
   Ok (formula_pole (MVector_of root_pos) (MVector_of mid_pos)
                    (MVector_of end_pos) multiplier)).
Proof.
  fold (line_of root_pos end_pos). unfold value. split.
  - intros Hz. rewrite get_pole_vec_pos_zero_axis by exact Hz. reflexivity.
  - intros Hz Hlen. rewrite get_pole_vec_pos_nonzero_axis by exact Hz.
    cbn [fst]. f_equal. apply pole_vector_of_formula, Hlen.
Qed.

End Commutative.

End Generic.

(** * Exact arithmetic

    What the computation gives when no operation rounds: the geometry
    the script aims at.  binary64 follows it only as far as rounding,
    underflow and overflow allow; what holds of the running program is in
    the sections on any arithmetic and on binary64. *)

Module Exact.

Open Scope R_scope.

Abbreviation vec := (MVector R).
Abbreviation pos := (xyz R).

Ltac vec_simpl :=
  unfold pole_vector_of, offset_dir_of, total_mag_of, closest_mid_point_of,
    scale_val, source_point_of, line_of, MVector_of, length, vdiv, vscale,
    vadd, vsub, dot in *;
  cbn [vx vy vz fadd fsub fmul fdiv fsqrt fzero fone R_Scalar] in *.

Lemma vec_eq (a b : vec) :
  vx a = vx b -> vy a = vy b -> vz a = vz b -> a = b.
Proof. destruct a, b; cbn; intros; subst; reflexivity. Qed.

Lemma is_zero_true (a : R) : is_zero a = true <-> a = 0.
Proof.
  cbn. destruct (Req_dec_T a 0); split; intros; try reflexivity;
    try assumption; try discriminate; contradiction.
Qed.

Lemma is_zero_false (a : R) : is_zero a = false <-> a <> 0.
Proof.
  cbn. destruct (Req_dec_T a 0); split; intros; try reflexivity;
    try assumption; try discriminate; contradiction.
Qed.

Lemma dot_self_nonneg (v : vec) : 0 <= dot v v.
Proof. destruct v as [a b c]. vec_simpl. nra. Qed.

Lemma dot_self_zero (v : vec) : dot v v = 0 -> v = mkMVector 0 0 0.
Proof.
  destruct v as [a b c]. vec_simpl. intros H.
  assert (a = 0) by nra. assert (b = 0) by nra. assert (c = 0) by nra.
  subst. reflexivity.
Qed.

Lemma length_nonneg (v : vec) : 0 <= length v.
Proof. apply sqrt_pos. Qed.

Lemma length_zero (v : vec) : length v = 0 -> v = mkMVector 0 0 0.
Proof.
  unfold length. cbn [fsqrt R_Scalar]. intros H.
  apply dot_self_zero. apply sqrt_eq_0; [apply dot_self_nonneg | exact H].
Qed.

Lemma length_sqr (v : vec) : length v * length v = dot v v.
Proof. apply sqrt_sqrt, dot_self_nonneg. Qed.

(** Root and end at the same position: the axis is null. *)
Lemma axis_null (root_pos : pos) :
  is_zero (dot (line_of root_pos root_pos) (line_of root_pos root_pos)) = true.
Proof.
  apply is_zero_true. destruct root_pos as [[a b] c]. vec_simpl. ring.
Qed.

(** Root and end apart: the axis has a length. *)
Lemma axis_nonzero (root_pos end_pos : pos) :
  root_pos <> end_pos ->
  dot (line_of root_pos end_pos) (line_of root_pos end_pos) <> 0.
Proof.
  intros Hne H. apply Hne. apply dot_self_zero in H.
  destruct root_pos as [[a b] c], end_pos as [[a' b'] c'].
  vec_simpl. injection H as H1 H2 H3.
  f_equal; [f_equal|]; lra.
Qed.

Section Laws.

Context {NN : NormalOfNull R}.

Implicit Types (root_pos mid_pos end_pos : pos) (s : Scene R).

(** With root and end apart the function returns, whatever the scene. *)
Lemma get_pole_vec_pos_returns root_pos mid_pos end_pos multiplier s :
  root_pos <> end_pos ->
  get_pole_vec_pos root_pos mid_pos end_pos multiplier s =
  let p := pole_vector_of root_pos mid_pos end_pos multiplier
             (scale_val root_pos mid_pos end_pos) in
  (Ok p, printed p s).
Proof.
  intros Hne.
  rewrite (@get_pole_vec_pos_nonzero_axis R _ NN root_pos mid_pos end_pos).
  - reflexivity.
  - apply is_zero_false, axis_nonzero, Hne.
Qed.

(** The vector from the closest point to mid is orthogonal to the axis. *)
Lemma offset_orthogonal root_pos mid_pos end_pos :
  root_pos <> end_pos ->
  dot (vsub (MVector_of mid_pos)
            (closest_mid_point_of root_pos end_pos
               (scale_val root_pos mid_pos end_pos)))
      (line_of root_pos end_pos) = 0.
Proof.
  intros Hne. apply axis_nonzero in Hne.
  destruct root_pos as [[rx ry] rz], mid_pos as [[mx my] mz],
    end_pos as [[ex ey] ez].
  vec_simpl. field. exact Hne.
Qed.

(** The closest point is on the line through root and end. *)
Lemma closest_on_line root_pos end_pos t :
  on_line (MVector_of root_pos) (MVector_of end_pos)
          (closest_mid_point_of root_pos end_pos t).
Proof.
  exists t.
  destruct root_pos as [[rx ry] rz], end_pos as [[ex ey] ez].
  vec_simpl. f_equal; ring.
Qed.

(** Mid off the line: the offset is not null, and has a length. *)
Lemma offset_length_pos root_pos mid_pos end_pos t :
  ~ on_line (MVector_of root_pos) (MVector_of end_pos) (MVector_of mid_pos) ->
  0 < length (vsub (MVector_of mid_pos)
                   (closest_mid_point_of root_pos end_pos t)).
Proof.
  intros Hoff.
  destruct (length_nonneg (vsub (MVector_of mid_pos)
              (closest_mid_point_of root_pos end_pos t))) as [Hlt | Heq];
    [exact Hlt | exfalso].
  symmetry in Heq. apply length_zero in Heq. apply Hoff.
  exists t.
  destruct root_pos as [[rx ry] rz], mid_pos as [[mx my] mz],
    end_pos as [[ex ey] ez].
  vec_simpl. injection Heq as H1 H2 H3. f_equal; lra.
Qed.

(** Mid on the line: the closest point is mid itself. *)
Lemma offset_null root_pos mid_pos end_pos :
  root_pos <> end_pos ->
  on_line (MVector_of root_pos) (MVector_of end_pos) (MVector_of mid_pos) ->
  vsub (MVector_of mid_pos)
       (closest_mid_point_of root_pos end_pos
          (scale_val root_pos mid_pos end_pos)) = mkMVector 0 0 0.
Proof.
  intros Hne [u Hu]. apply axis_nonzero in Hne.
  destruct root_pos as [[rx ry] rz], mid_pos as [[mx my] mz],
    end_pos as [[ex ey] ez].
  vec_simpl. injection Hu as H1 H2 H3. subst mx my mz.
  f_equal; field; exact Hne.
Qed.

(** [normal] of a vector that has a length. *)
Lemma normal_nonnull (v : vec) :
  length v <> 0 -> normal v = vdiv v (length v).
Proof.
  intros H. unfold normal. apply is_zero_false in H. rewrite H. reflexivity.
Qed.

Lemma normal_null (v : vec) :
  length v = 0 -> normal v = normal_of_null v.
Proof.
  intros H. unfold normal. apply is_zero_true in H. rewrite H. reflexivity.
Qed.

Lemma length_vscale (v : vec) (k : R) :
  length (vscale v k) = length v * Rabs k.
Proof.
  unfold length. cbn [fsqrt R_Scalar].
  replace (dot (vscale v k) (vscale v k)) with (dot v v * (k * k)).
  - rewrite sqrt_mult_alt by apply dot_self_nonneg.
    f_equal. rewrite <- (sqrt_Rsqr_abs k). reflexivity.
  - destruct v as [a b c]. vec_simpl. ring.
Qed.

Lemma length_vdiv_self (v : vec) :
  length v <> 0 -> length (vdiv v (length v)) = 1.
Proof.
  intros H.
  assert (Hs := length_sqr v).
  assert (Hp : 0 < length v) by (pose proof (length_nonneg v); lra).
  unfold length at 1. cbn [fsqrt R_Scalar].
  replace (dot (vdiv v (length v)) (vdiv v (length v))) with 1.
  - apply sqrt_1.
  - transitivity (dot v v / (length v * length v)).
    + rewrite Hs. field. rewrite <- Hs. nra.
    + destruct v as [a b c]. unfold vdiv, dot.
      cbn [vx vy vz fadd fmul fdiv R_Scalar]. field. exact H.
Qed.

(** Adding a vector and taking the sum's distance to the start. *)
Lemma vsub_vadd (a b : vec) : vsub (vadd a b) b = a.
Proof. destruct a, b. vec_simpl. f_equal; ring. Qed.

Lemma vadd_comm (a b : vec) : vadd a b = vadd b a.
Proof. destruct a, b. vec_simpl. f_equal; ring. Qed.

Lemma dot_comm (a b : vec) : dot a b = dot b a.
Proof. destruct a, b. vec_simpl. ring. Qed.

Lemma dot_vscale_l (a b : vec) (k : R) : dot (vscale a k) b = dot a b * k.
Proof. destruct a, b. vec_simpl. ring. Qed.

Lemma dot_vdiv_l (a b : vec) (k : R) :
  k <> 0 -> dot (vdiv a k) b = dot a b / k.
Proof. intros H. destruct a, b. vec_simpl. field. exact H. Qed.

Lemma length_mk (a b c l : R) :
  0 <= l -> a * a + b * b + c * c = l * l -> length (mkMVector a b c) = l.
Proof.
  intros Hl H. unfold length, dot. cbn [vx vy vz fsqrt fadd fmul R_Scalar].
  rewrite H. apply sqrt_square, Hl.
Qed.

(** The closest point of the function is the closest point of the
    formula. *)
Lemma closest_eq_spec root_pos mid_pos end_pos :
  closest_mid_point_of root_pos end_pos (scale_val root_pos mid_pos end_pos) =
  formula_closest (MVector_of root_pos) (MVector_of mid_pos) (MVector_of end_pos).
Proof. unfold closest_mid_point_of, formula_closest. apply vadd_comm. Qed.

(** The pole of a non-degenerate input, with [normal] resolved. *)
Lemma pole_vector_of_off_line root_pos mid_pos end_pos multiplier t :
  ~ on_line (MVector_of root_pos) (MVector_of end_pos) (MVector_of mid_pos) ->
  pole_vector_of root_pos mid_pos end_pos multiplier t =
  let offset := vsub (MVector_of mid_pos)
                     (closest_mid_point_of root_pos end_pos t) in
  vadd (vscale (vdiv offset (length offset))
               (total_mag_of root_pos mid_pos end_pos multiplier))
       (MVector_of mid_pos).
Proof.
  intros Hoff. unfold pole_vector_of, offset_dir_of.
  rewrite normal_nonnull; [reflexivity|].
  pose proof (offset_length_pos root_pos mid_pos end_pos t Hoff). lra.
Qed.

Lemma total_mag_nonneg root_pos mid_pos end_pos :
  0 <= length (vsub (MVector_of mid_pos) (MVector_of root_pos)) +
       length (vsub (MVector_of end_pos) (MVector_of mid_pos)).
Proof.
  pose proof (length_nonneg (vsub (MVector_of mid_pos) (MVector_of root_pos))).
  pose proof (length_nonneg (vsub (MVector_of end_pos) (MVector_of mid_pos))).
  lra.
Qed.

(** Where the pole sits relative to the closest point: along the offset,
    at [1 + total_mag / |offset|] times the offset. *)
Lemma pole_minus_closest (offset mid closest : vec) (d T : R) :
  d <> 0 -> offset = vsub mid closest ->
  dot (vsub (vadd (vscale (vdiv offset d) T) mid) closest) offset =
  (T / d + 1) * dot offset offset.
Proof.
  intros Hd ->. destruct mid, closest. vec_simpl. field. exact Hd.
Qed.

Lemma line_point_minus_closest (root line offset : vec) (t u : R) :
  dot (vsub (vadd root (vscale line u)) (vadd (vscale line t) root)) offset =
  (u - t) * dot line offset.
Proof. destruct root, line, offset. vec_simpl. ring. Qed.

(** A signed length of minus the offset's length brings the pole back
    onto the closest point. *)
Lemma pole_at_closest (mid closest : vec) (d : R) :
  d <> 0 ->
  vadd (vscale (vdiv (vsub mid closest) d) (- d)) mid = closest.
Proof.
  intros Hd. destruct mid, closest. vec_simpl. f_equal; field; exact Hd.
Qed.

(** The pole is on the root-end line exactly when the signed length
    cancels the distance from the line to mid. *)
Lemma pole_on_line_iff root_pos mid_pos end_pos multiplier :
  non_degenerate root_pos mid_pos end_pos ->
  let t := scale_val root_pos mid_pos end_pos in
  on_line (MVector_of root_pos) (MVector_of end_pos)
          (pole_vector_of root_pos mid_pos end_pos multiplier t) <->
  total_mag_of root_pos mid_pos end_pos multiplier =
  - length (vsub (MVector_of mid_pos) (closest_mid_point_of root_pos end_pos t)).
Proof.
  intros [Hne Hoff] t.
  rewrite pole_vector_of_off_line by exact Hoff. cbv zeta.
  pose proof (offset_length_pos root_pos mid_pos end_pos t Hoff) as Hd.
  pose proof (offset_orthogonal mid_pos Hne) as Hperp. fold t in Hperp.
  set (offset := vsub (MVector_of mid_pos)
                      (closest_mid_point_of root_pos end_pos t)) in *.
  set (T := total_mag_of root_pos mid_pos end_pos multiplier).
  pose proof (length_sqr offset) as Hsq.
  split.
  - intros [u Hu].
    apply (f_equal (fun v =>
             dot (vsub v (closest_mid_point_of root_pos end_pos t)) offset)) in Hu.
    cbv beta in Hu.
    assert (El : dot (vsub (vadd (vscale (vdiv offset (length offset)) T)
                                 (MVector_of mid_pos))
                           (closest_mid_point_of root_pos end_pos t)) offset =
                 (T / length offset + 1) * dot offset offset)
      by (apply pole_minus_closest; [lra | reflexivity]).
    assert (Er : dot (vsub (vadd (MVector_of root_pos)
                                 (vscale (line_of root_pos end_pos) u))
                           (closest_mid_point_of root_pos end_pos t)) offset =
                 (u - t) * dot (line_of root_pos end_pos) offset)
      by apply line_point_minus_closest.
    pose proof (eq_trans (eq_sym El) (eq_trans Hu Er)) as Hw0.
    rewrite (dot_comm (line_of root_pos end_pos) offset), Hperp, <- Hsq in Hw0.
    assert (Hw : T / length offset + 1 = 0).
    { rewrite Rmult_0_r in Hw0. apply Rmult_integral in Hw0.
      destruct Hw0 as [Hw0 | Hw0]; [exact Hw0 | nra]. }
    assert (HT : T = (T / length offset) * length offset) by (field; lra).
    rewrite HT. nra.
  - intros HT. rewrite HT. subst offset.
    rewrite pole_at_closest by lra. apply closest_on_line.
Qed.

(** Without rounding, the distance from the pole to mid is
    [(|mid - root| + |end - mid|) * |multiplier|]. *)
Lemma exact_pole_distance_from_mid root_pos mid_pos end_pos multiplier s :
  non_degenerate root_pos mid_pos end_pos ->
  exists p,
    value (get_pole_vec_pos root_pos mid_pos end_pos multiplier) s = Ok p /\
    length (vsub p (MVector_of mid_pos)) =
    (length (vsub (MVector_of mid_pos) (MVector_of root_pos)) +
     length (vsub (MVector_of end_pos) (MVector_of mid_pos))) * Rabs multiplier.
Proof.
  intros [Hne Hoff]. unfold value.
  rewrite get_pole_vec_pos_returns by exact Hne. cbn [fst].
  eexists; split; [reflexivity|].
  rewrite pole_vector_of_off_line by exact Hoff. cbv zeta.
  rewrite vsub_vadd, length_vscale, length_vdiv_self.
  - unfold total_mag_of. cbn [fmul fadd R_Scalar].
    rewrite Rabs_mult, (Rabs_pos_eq _ (total_mag_nonneg root_pos mid_pos end_pos)).
    ring.
  - pose proof (offset_length_pos root_pos mid_pos end_pos
                  (scale_val root_pos mid_pos end_pos) Hoff). lra.
Qed.

(** Without rounding, the pole lies on the line through root and end
    exactly when
    [multiplier * (|mid - root| + |end - mid|) = - |mid - closest|], so
    never for a multiplier [>= 0]. *)
Lemma exact_pole_collinear_iff root_pos mid_pos end_pos multiplier s :
  non_degenerate root_pos mid_pos end_pos ->
  exists p,
    value (get_pole_vec_pos root_pos mid_pos end_pos multiplier) s = Ok p /\
    (on_line (MVector_of root_pos) (MVector_of end_pos) p <->
     (length (vsub (MVector_of mid_pos) (MVector_of root_pos)) +
      length (vsub (MVector_of end_pos) (MVector_of mid_pos))) * multiplier =
     - length (vsub (MVector_of mid_pos)
                    (formula_closest (MVector_of root_pos) (MVector_of mid_pos)
                                  (MVector_of end_pos)))) /\
    (0 <= multiplier ->
     ~ on_line (MVector_of root_pos) (MVector_of end_pos) p).
Proof.
  intros Hnd. pose proof Hnd as [Hne Hoff]. unfold value.
  rewrite get_pole_vec_pos_returns by exact Hne. cbn [fst].
  eexists; split; [reflexivity|].
  pose proof (pole_on_line_iff multiplier Hnd) as Hiff. cbv zeta in Hiff.
  rewrite closest_eq_spec in Hiff.
  split; [exact Hiff|].
  intros Hk Hon. apply Hiff in Hon.
  pose proof (offset_length_pos root_pos mid_pos end_pos
                (scale_val root_pos mid_pos end_pos) Hoff) as Hd.
  rewrite closest_eq_spec in Hd.
  pose proof (total_mag_nonneg root_pos mid_pos end_pos) as HL.
  unfold total_mag_of in Hon. cbn [fmul fadd R_Scalar] in Hon. nra.
Qed.

(** Without rounding, a mid on the line through root and end (root and
    end apart) gives an offset that is exactly null, and the function
    returns [mid + n0 * total_length], [n0] being what [MVector.normal]
    answers for the null vector. *)
Lemma exact_pole_of_mid_on_line root_pos mid_pos end_pos multiplier s :
  root_pos <> end_pos ->
  on_line (MVector_of root_pos) (MVector_of end_pos) (MVector_of mid_pos) ->
  value (get_pole_vec_pos root_pos mid_pos end_pos multiplier) s =
  Ok (vadd (vscale (normal_of_null (mkMVector 0 0 0))
                   (total_mag_of root_pos mid_pos end_pos multiplier))
           (MVector_of mid_pos)).
Proof.
  intros Hne Hon. unfold value.
  rewrite get_pole_vec_pos_returns by exact Hne. cbn [fst]. f_equal.
  unfold pole_vector_of, offset_dir_of.
  rewrite offset_null by assumption.
  rewrite normal_null; [reflexivity|].
  apply length_mk; lra.
Qed.

(** Without rounding, the pole for multiplier [k] is
    [mid + k * (pole for multiplier 1 - mid)]. *)
Lemma exact_pole_scaling_law root_pos mid_pos end_pos k s :
  non_degenerate root_pos mid_pos end_pos ->
  exists p1 pk,
    value (get_pole_vec_pos root_pos mid_pos end_pos 1) s = Ok p1 /\
    value (get_pole_vec_pos root_pos mid_pos end_pos k) s = Ok pk /\
    pk = vadd (MVector_of mid_pos) (vscale (vsub p1 (MVector_of mid_pos)) k).
Proof.
  intros [Hne Hoff]. unfold value.
  rewrite !get_pole_vec_pos_returns by exact Hne. cbn [fst].
  eexists; eexists; split; [reflexivity|]; split; [reflexivity|].
  unfold pole_vector_of. rewrite vsub_vadd.
  generalize (offset_dir_of root_pos mid_pos end_pos
                (scale_val root_pos mid_pos end_pos)); intros u.
  unfold total_mag_of.
  generalize (fadd (length (vsub (MVector_of mid_pos) (MVector_of root_pos)))
                   (length (vsub (MVector_of end_pos) (MVector_of mid_pos))));
    intros L.
  destruct u, (MVector_of mid_pos). unfold vadd, vscale.
  cbn [vx vy vz fadd fmul R_Scalar]. f_equal; ring.
Qed.

(** Without rounding, the offset from mid to the pole is perpendicular to
    the root-end axis. *)
Lemma exact_pole_offset_perpendicular root_pos mid_pos end_pos multiplier s :
  non_degenerate root_pos mid_pos end_pos ->
  exists p,
    value (get_pole_vec_pos root_pos mid_pos end_pos multiplier) s = Ok p /\
    dot (vsub p (MVector_of mid_pos))
        (vsub (MVector_of end_pos) (MVector_of root_pos)) = 0.
Proof.
  intros [Hne Hoff]. unfold value.
  rewrite get_pole_vec_pos_returns by exact Hne. cbn [fst].
  eexists; split; [reflexivity|].
  rewrite pole_vector_of_off_line by exact Hoff. cbv zeta.
  pose proof (offset_length_pos root_pos mid_pos end_pos
                (scale_val root_pos mid_pos end_pos) Hoff) as Hd.
  rewrite vsub_vadd, dot_vscale_l, dot_vdiv_l by lra.
  fold (line_of root_pos end_pos).
  rewrite (offset_orthogonal mid_pos Hne). field. lra.
Qed.

(** Without rounding, the pole lies on the ray from the closest point
    through mid: it is [closest + lambda * (mid - closest)], with
    [lambda >= 1] when the multiplier is not negative and [lambda < 1]
    when it is. *)
Lemma exact_pole_on_ray root_pos mid_pos end_pos multiplier s :
  non_degenerate root_pos mid_pos end_pos ->
  exists p lambda,
    value (get_pole_vec_pos root_pos mid_pos end_pos multiplier) s = Ok p /\
    p = vadd (formula_closest (MVector_of root_pos) (MVector_of mid_pos)
                              (MVector_of end_pos))
             (vscale (vsub (MVector_of mid_pos)
                           (formula_closest (MVector_of root_pos)
                                            (MVector_of mid_pos)
                                            (MVector_of end_pos)))
                     lambda) /\
    (0 <= multiplier -> 1 <= lambda) /\
    (multiplier < 0 -> lambda < 1).
Proof.
  intros [Hne Hoff]. unfold value.
  rewrite get_pole_vec_pos_returns by exact Hne. cbn [fst].
  rewrite pole_vector_of_off_line by exact Hoff. cbv zeta.
  pose proof (offset_length_pos root_pos mid_pos end_pos
                (scale_val root_pos mid_pos end_pos) Hoff) as Hd.
  pose proof (total_mag_nonneg root_pos mid_pos end_pos) as HL.
  rewrite closest_eq_spec in *.
  set (closest := formula_closest _ _ _) in *.
  set (d := length (vsub (MVector_of mid_pos) closest)) in *.
  unfold total_mag_of. cbn [fmul fadd R_Scalar].
  set (L := length (vsub (MVector_of mid_pos) (MVector_of root_pos)) +
            length (vsub (MVector_of end_pos) (MVector_of mid_pos))) in *.
  eexists. exists (1 + L * multiplier / d).
  split; [reflexivity |]. split; [| split].
  - destruct (MVector_of mid_pos), closest.
    unfold vadd, vscale, vdiv, vsub.
    cbn [vx vy vz fadd fsub fmul fdiv R_Scalar]. f_equal; field; lra.
  - intros Hk. assert (0 <= L * multiplier / d); [| lra].
    apply Rmult_le_pos; [nra |]. apply Rlt_le, Rinv_0_lt_compat, Hd.
  - intros Hk.
    destruct (Req_dec_T L 0) as [HL0 | HL0].
    + exfalso. clear - Hne HL0. subst L.
      pose proof (length_nonneg (vsub (MVector_of mid_pos) (MVector_of root_pos))).
      pose proof (length_nonneg (vsub (MVector_of end_pos) (MVector_of mid_pos))).
      assert (H1 : length (vsub (MVector_of mid_pos) (MVector_of root_pos)) = 0)
        by lra.
      assert (H2 : length (vsub (MVector_of end_pos) (MVector_of mid_pos)) = 0)
        by lra.
      apply length_zero in H1, H2. apply Hne.
      destruct root_pos as [[rx ry] rz], mid_pos as [[mx my] mz],
        end_pos as [[ex ey] ez].
      vec_simpl. injection H1 as ? ? ?. injection H2 as ? ? ?.
      f_equal; [f_equal |]; lra.
    + assert (L * multiplier / d < 0); [| lra].
      assert (Hinv : 0 < / d) by (apply Rinv_0_lt_compat, Hd).
      assert (Hneg : L * multiplier < 0) by nra.
      unfold Rdiv. generalize dependent (L * multiplier).
      generalize dependent (/ d). intros; nra.
Qed.

End Laws.

(** ** Concrete inputs *)

Section Scenarios.

Context {NN : NormalOfNull R}.

Ltac off_line :=
  let u := fresh "u" in
  let H := fresh "H" in
  intros [u H]; vec_simpl; injection H; intros; lra.

Ltac apart :=
  let H := fresh "H" in
  intros H; injection H; intros; lra.

(** The scenario of the specification: root [(0,0,0)], mid [(0,1,0)],
    end [(2,0,0)]. *)
Lemma scenario_non_degenerate : non_degenerate (0, 0, 0) (0, 1, 0) (2, 0, 0).
Proof. split; [apart | off_line]. Qed.

(** The scenario in exact arithmetic: every local and the result. *)
Lemma scenario_exact (s : Scene R) :
  line_of (0, 0, 0) (2, 0, 0) = mkMVector 2 0 0 /\
  source_point_of (0, 0, 0) (0, 1, 0) = mkMVector 0 1 0 /\
  closest_point_scale_val_of (0, 0, 0) (0, 1, 0) (2, 0, 0) = Ok 0 /\
  closest_mid_point_of (0, 0, 0) (2, 0, 0) 0 = mkMVector 0 0 0 /\
  total_mag_of (0, 0, 0) (0, 1, 0) (2, 0, 0) 1 = 1 + sqrt 5 /\
  offset_dir_of (0, 0, 0) (0, 1, 0) (2, 0, 0) 0 = mkMVector 0 1 0 /\
  value (get_pole_vec_pos (0, 0, 0) (0, 1, 0) (2, 0, 0) 1) s =
    Ok (mkMVector 0 (2 + sqrt 5) 0) /\
  Rabs (2 + sqrt 5 - 4.236) <= 1e-4.
Proof.
  assert (Hline : line_of (0, 0, 0) (2, 0, 0) = mkMVector 2 0 0)
    by (vec_simpl; f_equal; ring).
  assert (Hsrc : source_point_of (0, 0, 0) (0, 1, 0) = mkMVector 0 1 0)
    by (vec_simpl; f_equal; ring).
  assert (Ht : scale_val (0, 0, 0) (0, 1, 0) (2, 0, 0) = 0)
    by (vec_simpl; field).
  assert (Hclosest : closest_mid_point_of (0, 0, 0) (2, 0, 0) 0 =
                     mkMVector 0 0 0)
    by (vec_simpl; f_equal; ring).
  assert (Htotal : total_mag_of (0, 0, 0) (0, 1, 0) (2, 0, 0) 1 = 1 + sqrt 5).
  { unfold total_mag_of, MVector_of, vsub. cbn [vx vy vz fsub R_Scalar].
    rewrite (@length_mk _ _ _ 1) by lra.
    unfold length, dot. cbn [vx vy vz fsqrt fadd fmul R_Scalar].
    replace ((2 - 0) * (2 - 0) + (0 - 1) * (0 - 1) + (0 - 0) * (0 - 0))
      with 5 by ring.
    ring. }
  assert (Hdir : offset_dir_of (0, 0, 0) (0, 1, 0) (2, 0, 0) 0 =
                 mkMVector 0 1 0).
  { unfold offset_dir_of. rewrite Hclosest.
    unfold MVector_of, vsub. cbn [vx vy vz fsub R_Scalar].
    rewrite normal_nonnull; rewrite (@length_mk _ _ _ 1) by lra; [| lra].
    vec_simpl. f_equal; field. }
  assert (Hsqrt : 2.236 < sqrt 5 < 2.2361).
  { pose proof (sqrt_pos 5). pose proof (sqrt_sqrt 5 ltac:(lra)). nra. }
  repeat split; try assumption.
  - unfold closest_point_scale_val_of, truediv. rewrite Hline, Hsrc.
    assert (Hz : is_zero (dot (mkMVector 2 0 0) (mkMVector 2 0 0)) = false)
      by (apply is_zero_false; vec_simpl; lra).
    rewrite Hz. f_equal. vec_simpl. field.
  - destruct scenario_non_degenerate as [Hne _]. unfold value.
    rewrite get_pole_vec_pos_returns by exact Hne. cbn [fst]. f_equal.
    unfold pole_vector_of. rewrite Ht, Hdir, Htotal.
    vec_simpl. f_equal; ring.
  - apply Rabs_le. lra.
Qed.

End Scenarios.

End Exact.

(** * binary64 arithmetic *)

Module Binary64.

Local Open Scope float_scope.

Abbreviation fvec := (MVector float).
Abbreviation fpos := (xyz float).

Section Runs.

Context {NN : NormalOfNull float}.

(** A finite float minus itself is a zero. *)
Lemma sub_self_zero (a : float) :
  finite a = true -> zero_float (PrimFloat.sub a a).
Proof.
  unfold finite, zero_float. intros Hfin.
  destruct (Prim2SF a) as [sg | sg | | sg m e] eqn:Ea; try discriminate.
  - exists false. rewrite FloatAxioms.sub_spec, Ea. destruct sg; reflexivity.
  - exists false. rewrite FloatAxioms.sub_spec, Ea.
    unfold SF64sub, SFsub. cbv zeta. rewrite Z.sub_diag. reflexivity.
Qed.

Lemma mul_zero_zero (a b : float) :
  zero_float a -> zero_float b -> zero_float (PrimFloat.mul a b).
Proof.
  intros [sa Ha] [sb Hb]. unfold zero_float.
  exists (xorb sa sb). rewrite FloatAxioms.mul_spec, Ha, Hb. reflexivity.
Qed.

Lemma add_zero_zero (a b : float) :
  zero_float a -> zero_float b -> zero_float (PrimFloat.add a b).
Proof.
  intros [sa Ha] [sb Hb]. unfold zero_float.
  exists (sa && sb). rewrite FloatAxioms.add_spec, Ha, Hb.
  destruct sa, sb; reflexivity.
Qed.

(** A signed zero compares equal to [0.0]. *)
Lemma is_zero_zero_float (a : float) : zero_float a -> is_zero a = true.
Proof.
  intros [sa Ha]. cbn [is_zero float_Scalar].
  rewrite FloatAxioms.eqb_spec, Ha. destruct sa; reflexivity.
Qed.

(** Root and end at the same finite position: the squared length of the
    axis is a zero. *)
Lemma axis_zero (root_pos : fpos) :
  finite_xyz root_pos = true ->
  is_zero (dot (line_of root_pos root_pos) (line_of root_pos root_pos)) = true.
Proof.
  destruct root_pos as [[a b] c]. unfold finite_xyz.
  intros H. apply andb_prop in H as [H Hc]. apply andb_prop in H as [Ha Hb].
  apply is_zero_zero_float.
  unfold line_of, MVector_of, vsub, dot.
  cbn [vx vy vz fadd fsub fmul float_Scalar].
  repeat apply add_zero_zero; apply mul_zero_zero; apply sub_self_zero;
    assumption.
Qed.

(** A product with a NaN or an infinity is a NaN or an infinity. *)
Lemma mul_nonfinite_r (a b : float) :
  finite b = false -> finite (PrimFloat.mul a b) = false.
Proof.
  unfold finite. rewrite FloatAxioms.mul_spec.
  destruct (Prim2SF a), (Prim2SF b); intros H; try discriminate; reflexivity.
Qed.

(** So is a sum. *)
Lemma add_nonfinite_l (a b : float) :
  finite a = false -> finite (PrimFloat.add a b) = false.
Proof.
  unfold finite. rewrite FloatAxioms.add_spec.
  destruct (Prim2SF a) as [sa | sa | | sa ma ea],
           (Prim2SF b) as [sb | sb | | sb mb eb];
    intros H; try discriminate; try reflexivity.
  destruct sa, sb; reflexivity.
Qed.

(** binary64 addition takes its operands in either order. *)
Lemma float_add_comm (a b : float) : PrimFloat.add a b = PrimFloat.add b a.
Proof.
  apply FloatAxioms.Prim2SF_inj. rewrite !FloatAxioms.add_spec.
  destruct (Prim2SF a) as [sa | sa | | sa ma ea],
           (Prim2SF b) as [sb | sb | | sb mb eb];
    try reflexivity; try (destruct sa, sb; reflexivity).
  unfold SF64add, SFadd. cbv zeta.
  rewrite (Z.min_comm eb ea). f_equal. apply Z.add_comm.
Qed.

(** C6, amended. The multiplier is not examined: for every multiplier,
    NaN and the infinities included, the function returns a value exactly
    when the squared length of the axis does not compare equal to zero.
    A non-finite multiplier is computed with, never rejected, and every
    coordinate of the vector returned for it is a NaN or an infinity. *)
Theorem multiplier_never_rejected (root_pos mid_pos end_pos : fpos) (multiplier : float)
      (s : Scene float) :
  ((exists p,
      value (get_pole_vec_pos root_pos mid_pos end_pos multiplier) s = Ok p) <->
   is_zero (dot (line_of root_pos end_pos) (line_of root_pos end_pos)) = false) /\
  (forall p,
     value (get_pole_vec_pos root_pos mid_pos end_pos multiplier) s = Ok p ->
     finite multiplier = false ->
     finite (vx p) = false /\ finite (vy p) = false /\ finite (vz p) = false).
Proof.
  unfold value.
  destruct (is_zero (dot (line_of root_pos end_pos) (line_of root_pos end_pos)))
    eqn:Hz.
  - rewrite get_pole_vec_pos_zero_axis by exact Hz. cbn [fst].
    split; [| intros p Hp; discriminate].
    split; [intros [p Hp]; discriminate | discriminate].
  - rewrite get_pole_vec_pos_nonzero_axis by exact Hz. cbn [fst].
    split; [split; [reflexivity | intros _; eexists; reflexivity] |].
    intros p Hp Hk. injection Hp as <-.
    unfold pole_vector_of, total_mag_of, vadd, vscale.
    cbn [vx vy vz fadd fmul float_Scalar].
    repeat split; apply add_nonfinite_l, mul_nonfinite_r, mul_nonfinite_r, Hk.
Qed.

(** ** NaN among the positions *)

(** Every operation the function uses hands a NaN operand on. *)
Lemma nan_sub_l a b : is_nan_float a = true -> is_nan_float (PrimFloat.sub a b) = true.
Proof.
  unfold is_nan_float. rewrite FloatAxioms.sub_spec.
  destruct (Prim2SF a), (Prim2SF b); intros H; try discriminate; reflexivity.
Qed.
Lemma nan_sub_r a b : is_nan_float b = true -> is_nan_float (PrimFloat.sub a b) = true.
Proof.
  unfold is_nan_float. rewrite FloatAxioms.sub_spec.
  destruct (Prim2SF a), (Prim2SF b); intros H; try discriminate; reflexivity.
Qed.
Lemma nan_add_l a b : is_nan_float a = true -> is_nan_float (PrimFloat.add a b) = true.
Proof.
  unfold is_nan_float. rewrite FloatAxioms.add_spec.
  destruct (Prim2SF a), (Prim2SF b); intros H; try discriminate; reflexivity.
Qed.
Lemma nan_add_r a b : is_nan_float b = true -> is_nan_float (PrimFloat.add a b) = true.
Proof.
  unfold is_nan_float. rewrite FloatAxioms.add_spec.
  destruct (Prim2SF a), (Prim2SF b); intros H; try discriminate; reflexivity.
Qed.
Lemma nan_mul_l a b : is_nan_float a = true -> is_nan_float (PrimFloat.mul a b) = true.
Proof.
  unfold is_nan_float. rewrite FloatAxioms.mul_spec.
  destruct (Prim2SF a), (Prim2SF b); intros H; try discriminate; reflexivity.
Qed.
Lemma nan_mul_r a b : is_nan_float b = true -> is_nan_float (PrimFloat.mul a b) = true.
Proof.
  unfold is_nan_float. rewrite FloatAxioms.mul_spec.
  destruct (Prim2SF a), (Prim2SF b); intros H; try discriminate; reflexivity.
Qed.
Lemma nan_div_l a b : is_nan_float a = true -> is_nan_float (PrimFloat.div a b) = true.
Proof.
  unfold is_nan_float. rewrite FloatAxioms.div_spec.
  destruct (Prim2SF a), (Prim2SF b); intros H; try discriminate; reflexivity.
Qed.
Lemma nan_div_r a b : is_nan_float b = true -> is_nan_float (PrimFloat.div a b) = true.
Proof.
  unfold is_nan_float. rewrite FloatAxioms.div_spec.
  destruct (Prim2SF a), (Prim2SF b); intros H; try discriminate; reflexivity.
Qed.
Lemma nan_sqrt a : is_nan_float a = true -> is_nan_float (PrimFloat.sqrt a) = true.
Proof.
  unfold is_nan_float. rewrite FloatAxioms.sqrt_spec.
  destruct (Prim2SF a); intros H; try discriminate; reflexivity.
Qed.
Lemma nan_not_zero a : is_nan_float a = true -> is_zero a = false.
Proof.
  unfold is_nan_float. cbn [is_zero float_Scalar]. rewrite FloatAxioms.eqb_spec.
  destruct (Prim2SF a); intros H; try discriminate; reflexivity.
Qed.

Lemma has_nan_of (p : xyz float) :
  has_nan p = true ->
  is_nan_float (vx (MVector_of p)) = true \/
  is_nan_float (vy (MVector_of p)) = true \/
  is_nan_float (vz (MVector_of p)) = true.
Proof.
  destruct p as [[a b] c]. unfold has_nan. cbn [MVector_of vx vy vz].
  intros H. apply orb_prop in H as [H | H]; [| auto].
  apply orb_prop in H as [H | H]; auto.
Qed.

(** A dot product with a NaN coordinate on either side is NaN. *)
Lemma nan_dot_l (a b : MVector float) :
  is_nan_float (vx a) = true \/ is_nan_float (vy a) = true \/
  is_nan_float (vz a) = true ->
  is_nan_float (dot a b) = true.
Proof.
  unfold dot. cbn [fadd fmul float_Scalar]. intros [H | [H | H]].
  - apply nan_add_l, nan_add_l, nan_mul_l, H.
  - apply nan_add_l, nan_add_r, nan_mul_l, H.
  - apply nan_add_r, nan_mul_l, H.
Qed.

Lemma nan_dot_r (a b : MVector float) :
  is_nan_float (vx b) = true \/ is_nan_float (vy b) = true \/
  is_nan_float (vz b) = true ->
  is_nan_float (dot a b) = true.
Proof.
  unfold dot. cbn [fadd fmul float_Scalar]. intros [H | [H | H]].
  - apply nan_add_l, nan_add_l, nan_mul_r, H.
  - apply nan_add_l, nan_add_r, nan_mul_r, H.
  - apply nan_add_r, nan_mul_r, H.
Qed.

(** Once the projection scalar is NaN, so is every coordinate of the
    pole. *)
Lemma nan_scale_nan_pole root_pos mid_pos end_pos multiplier t :
  is_nan_float t = true ->
  nan_vec (pole_vector_of root_pos mid_pos end_pos multiplier t) = true.
Proof.
  intros Ht.
  set (offset := vsub (MVector_of mid_pos)
                      (closest_mid_point_of root_pos end_pos t)).
  assert (Hx : is_nan_float (vx offset) = true).
  { unfold offset, closest_mid_point_of, vsub, vadd, vscale.
    cbn [vx vy vz fadd fsub fmul float_Scalar].
    apply nan_sub_r, nan_add_l, nan_mul_r, Ht. }
  assert (Hy : is_nan_float (vy offset) = true).
  { unfold offset, closest_mid_point_of, vsub, vadd, vscale.
    cbn [vx vy vz fadd fsub fmul float_Scalar].
    apply nan_sub_r, nan_add_l, nan_mul_r, Ht. }
  assert (Hz : is_nan_float (vz offset) = true).
  { unfold offset, closest_mid_point_of, vsub, vadd, vscale.
    cbn [vx vy vz fadd fsub fmul float_Scalar].
    apply nan_sub_r, nan_add_l, nan_mul_r, Ht. }
  assert (Hlen : is_zero (length offset) = false).
  { apply nan_not_zero. unfold length. cbn [fsqrt float_Scalar].
    apply nan_sqrt, nan_dot_l. auto. }
  unfold pole_vector_of, offset_dir_of, normal. fold offset. rewrite Hlen.
  unfold nan_vec, vadd, vscale, vdiv.
  cbn [vx vy vz fadd fmul fdiv float_Scalar].
  repeat (apply andb_true_intro; split);
    apply nan_add_l, nan_mul_l, nan_div_l; assumption.
Qed.

(** X14. Positions are not examined either: when some coordinate of
    root, mid or end is NaN the function computes with it.  It returns a
    vector whose three coordinates are NaN; the one other outcome is
    [ZeroDivisionError], and that only when the NaN is in mid alone and
    the squared length of the axis compares equal to zero. *)
Theorem nan_positions_not_rejected root_pos mid_pos end_pos multiplier
        (s : Scene float) :
  has_nan root_pos || has_nan mid_pos || has_nan end_pos = true ->
  (has_nan root_pos || has_nan end_pos = false /\
   value (get_pole_vec_pos root_pos mid_pos end_pos multiplier) s =
   Raise ZeroDivisionError) \/
  (exists p,
     value (get_pole_vec_pos root_pos mid_pos end_pos multiplier) s = Ok p /\
     nan_vec p = true).
Proof.
  intros H. unfold value.
  destruct (is_zero (dot (line_of root_pos end_pos) (line_of root_pos end_pos)))
    eqn:Hz.
  - left. rewrite get_pole_vec_pos_zero_axis by exact Hz. cbn [fst].
    split; [| reflexivity].
    destruct (has_nan root_pos || has_nan end_pos) eqn:Hre; [| reflexivity].
    exfalso.
    assert (Hnan : is_nan_float (dot (line_of root_pos end_pos)
                                     (line_of root_pos end_pos)) = true).
    { apply nan_dot_l. unfold line_of, vsub.
      cbn [vx vy vz fsub float_Scalar].
      apply orb_prop in Hre as [Hr | He].
      - apply has_nan_of in Hr as [Hr | [Hr | Hr]];
          [left | right; left | right; right]; apply nan_sub_r, Hr.
      - apply has_nan_of in He as [He | [He | He]];
          [left | right; left | right; right]; apply nan_sub_l, He. }
    apply nan_not_zero in Hnan. congruence.
  - right. rewrite get_pole_vec_pos_nonzero_axis by exact Hz. cbn [fst].
    eexists. split; [reflexivity |].
    apply nan_scale_nan_pole.
    apply orb_prop in H as [H | He].
    + apply orb_prop in H as [Hr | Hm].
      * apply nan_div_l, nan_dot_l. unfold line_of, vsub.
        cbn [vx vy vz fsub float_Scalar].
        apply has_nan_of in Hr as [Hr | [Hr | Hr]];
          [left | right; left | right; right]; apply nan_sub_r, Hr.
      * apply nan_div_l, nan_dot_r. unfold source_point_of, vsub.
        cbn [vx vy vz fsub float_Scalar].
        apply has_nan_of in Hm as [Hm | [Hm | Hm]];
          [left | right; left | right; right]; apply nan_sub_l, Hm.
    + apply nan_div_l, nan_dot_l. unfold line_of, vsub.
      cbn [vx vy vz fsub float_Scalar].
      apply has_nan_of in He as [He | [He | He]];
        [left | right; left | right; right]; apply nan_sub_l, He.
Qed.
(** The scenario of the specification, as the interpreter runs it. *)
Lemma scenario_run (s : Scene float) :
  line_of (0, 0, 0) (2, 0, 0) = mkMVector 2 0 0 /\
  source_point_of (0, 0, 0) (0, 1, 0) = mkMVector 0 1 0 /\
  closest_point_scale_val_of (0, 0, 0) (0, 1, 0) (2, 0, 0) =
    Ok 0 /\
  closest_mid_point_of (0, 0, 0) (2, 0, 0) 0 =
    mkMVector 0 0 0 /\
  total_mag_of (0, 0, 0) (0, 1, 0) (2, 0, 0) 1 =
    PrimFloat.add 1 (PrimFloat.sqrt 5) /\
  offset_dir_of (0, 0, 0) (0, 1, 0) (2, 0, 0) 0 =
    mkMVector 0 1 0 /\
  exists p,
    value (get_pole_vec_pos (0, 0, 0) (0, 1, 0) (2, 0, 0)
                            1) s = Ok p /\
    within 1e-4 (vx p) 0 = true /\
    within 1e-4 (vy p) 4.236 = true /\
    within 1e-4 (vz p) 0 = true.
Proof.
  repeat split; try (vm_compute; reflexivity).
  eexists. split.
  - unfold value. rewrite get_pole_vec_pos_nonzero_axis by (vm_compute; reflexivity).
    cbn [fst]. reflexivity.
  - repeat split; vm_compute; reflexivity.
Qed.

End Runs.

(** C6 as stated fails: on the scenario of the specification a multiplier
    of [+infinity], [-infinity] or NaN is accepted and a vector of
    non-finite coordinates comes back. *)
Lemma non_finite_multiplier_accepted :
  finite infinity = false /\ finite neg_infinity = false /\
  finite nan = false /\
  value (get_pole_vec_pos (0, 0, 0) (0, 1, 0) (2, 0, 0) infinity)
        empty_scene = Ok (mkMVector nan infinity nan) /\
  value (get_pole_vec_pos (0, 0, 0) (0, 1, 0) (2, 0, 0) neg_infinity)
        empty_scene = Ok (mkMVector nan neg_infinity nan) /\
  value (get_pole_vec_pos (0, 0, 0) (0, 1, 0) (2, 0, 0) nan)
        empty_scene = Ok (mkMVector nan nan nan).
Proof. repeat split; vm_compute; reflexivity. Qed.

(** The 3-4-5 triangle, run: multiplier [-1] puts the pole at [(0,-5,0)],
    and multiplier [-0.375] puts it on root. *)
Example triangle_run_minus_one :
  value (get_pole_vec_pos (0, 0, 0) (0, 3, 0) (4, 0, 0)
                          (-1)) empty_scene =
  Ok (mkMVector 0 (-5) 0).
Proof. vm_compute. reflexivity. Qed.

Example triangle_run_on_root :
  value (get_pole_vec_pos (0, 0, 0) (0, 3, 0) (4, 0, 0)
                          (-0.375)) empty_scene =
  Ok (mkMVector 0 0 0).
Proof. vm_compute. reflexivity. Qed.

(** Mid on the segment, run: the answer is mid. *)
Example mid_on_segment_run :
  value (get_pole_vec_pos (0, 0, 0) (1, 0, 0) (2, 0, 0)
                          1) empty_scene =
  Ok (mkMVector 1 0 0).
Proof. vm_compute. reflexivity. Qed.

(** Root and end at an infinite position: the axis is NaN, not zero, and
    the function returns NaN coordinates. *)
Example infinite_root_run :
  value (get_pole_vec_pos (infinity, 0, 0) (0, 1, 0)
                          (infinity, 0, 0) 1) empty_scene =
  Ok (mkMVector nan nan nan).
Proof. vm_compute. reflexivity. Qed.

(** X14, with a NaN in root. *)
Lemma nan_positions_not_rejected_witness :
  has_nan (nan, 0, 0) || has_nan (0, 1, 0) || has_nan (2, 0, 0) = true /\
  ((has_nan (nan, 0, 0) || has_nan (2, 0, 0) = false /\
    value (get_pole_vec_pos (nan, 0, 0) (0, 1, 0) (2, 0, 0) 1) empty_scene =
    Raise ZeroDivisionError) \/
   (exists p,
      value (get_pole_vec_pos (nan, 0, 0) (0, 1, 0) (2, 0, 0) 1) empty_scene =
      Ok p /\
      nan_vec p = true)).
Proof.
  split; [vm_compute; reflexivity |].
  apply (@nan_positions_not_rejected maya_normal_of_null
           (nan, 0, 0) (0, 1, 0) (2, 0, 0) 1 empty_scene).
  vm_compute. reflexivity.
Defined.

(** A NaN in mid alone, root and end at one place: the division is
    still the one that raises. *)
Example nan_mid_run :
  value (get_pole_vec_pos (1, 2, 3) (nan, 0, 0) (1, 2, 3) 1) empty_scene =
  Raise ZeroDivisionError.
Proof. vm_compute. reflexivity. Qed.

End Binary64.

(** * Runs that do not round

    Where every value of a binary64 run is finite and unrounded, the
    run stands, number for number, for the run in exact arithmetic, and
    the laws of exact arithmetic hold of what the function returns. *)

Module Unrounded.

Open Scope R_scope.

Lemma exact_vec_of (p : xyz float) :
  exact_vec (MVector_of p) = MVector_of (exact_xyz p).
Proof. destruct p as [[a b] c]. reflexivity. Qed.

Lemma exactly_vec_eq (r : MVector float) (x : MVector R) :
  exactly_vec r x -> exact_vec r = x.
Proof.
  intros ((_ & Hx) & (_ & Hy) & (_ & Hz)). destruct x. unfold exact_vec.
  cbn [vx vy vz] in *. congruence.
Qed.

Lemma exactly_vec_finite (r : MVector float) (x : MVector R) :
  exactly_vec r x -> finite_vec r = true.
Proof.
  intros ((Hx & _) & (Hy & _) & (Hz & _)). unfold finite_vec.
  rewrite Hx, Hy, Hz. reflexivity.
Qed.

(** A float that stands for a number other than zero does not compare
    equal to zero. *)
Lemma nonzero_exact (a : float) : exact a <> 0 -> is_zero a = false.
Proof.
  intros Hne. cbn [is_zero float_Scalar].
  rewrite FloatAxioms.eqb_spec. unfold exact, exactQ in Hne.
  destruct (Prim2SF a) as [sg | sg | | sg m e];
    try reflexivity; try (destruct sg; reflexivity).
  exfalso. apply Hne. apply RMicromega.Q2R_0.
Qed.

Lemma exact_one : exact 1%float = 1.
Proof.
  unfold exact.
  let q := eval vm_compute in (exactQ 1%float) in
  change (exactQ 1%float) with q.
  unfold Q2R. cbn [Qnum Qden]. lra.
Qed.

(** A finite difference has finite operands. *)
Lemma sub_finite (a b : float) :
  finite (PrimFloat.sub a b) = true -> finite a = true /\ finite b = true.
Proof.
  unfold finite. rewrite FloatAxioms.sub_spec.
  destruct (Prim2SF a) as [sa | sa | | sa ma ea],
           (Prim2SF b) as [sb | sb | | sb mb eb];
    intros H; try (split; reflexivity); try discriminate;
    destruct sa, sb; discriminate.
Qed.

Lemma mul_finite_r (a b : float) :
  finite (PrimFloat.mul a b) = true -> finite b = true.
Proof.
  intros H. destruct (finite b) eqn:Hb; [reflexivity |].
  rewrite (Binary64.mul_nonfinite_r a b Hb) in H. discriminate.
Qed.

(** The inputs of an unrounded run are finite: the numbers they stand
    for are their values, not the convention for NaN and the
    infinities. *)
Lemma unrounded_inputs_finite (root_pos mid_pos end_pos : xyz float)
      (multiplier : float) :
  runs_unrounded root_pos mid_pos end_pos multiplier ->
  finite_xyz root_pos = true /\ finite_xyz mid_pos = true /\
  finite_xyz end_pos = true /\ finite multiplier = true.
Proof.
  unfold runs_unrounded. cbv zeta.
  intros (Hline & Hsrc & _ & _ & _ & _ & _ & _ & _ & _ & _ & HT & _).
  destruct root_pos as [[rx ry] rz], mid_pos as [[mx my] mz],
    end_pos as [[ex ey] ez].
  destruct Hline as ((Hx & _) & (Hy & _) & (Hz & _)).
  destruct Hsrc as ((Hx' & _) & (Hy' & _) & (Hz' & _)).
  destruct HT as (HT & _).
  cbn [MVector_of vsub vx vy vz fsub float_Scalar] in *.
  apply sub_finite in Hx, Hy, Hz, Hx', Hy', Hz'.
  apply mul_finite_r in HT.
  unfold finite_xyz.
  destruct Hx as [-> ->], Hy as [-> ->], Hz as [-> ->],
    Hx' as [-> _], Hy' as [-> _], Hz' as [-> _].
  auto.
Qed.

Section Bridge.

Context {NN : NormalOfNull float} {NR : NormalOfNull R}.

(** An unrounded run on a non-degenerate input returns, its result is
    finite, and it stands for the result of the run in exact arithmetic
    on the numbers the inputs stand for. *)
Lemma unrounded_run root_pos mid_pos end_pos multiplier
      (s : Scene float) (s' : Scene R) :
  non_degenerate (exact_xyz root_pos) (exact_xyz mid_pos) (exact_xyz end_pos) ->
  runs_unrounded root_pos mid_pos end_pos multiplier ->
  exists p,
    value (get_pole_vec_pos root_pos mid_pos end_pos multiplier) s = Ok p /\
    finite_vec p = true /\
    value (get_pole_vec_pos (exact_xyz root_pos) (exact_xyz mid_pos)
                            (exact_xyz end_pos) (exact multiplier)) s' =
    Ok (exact_vec p).
Proof.
  intros [Hne Hoff] Hrun. unfold runs_unrounded in Hrun. cbv zeta in Hrun.
  destruct Hrun as (Hline & Hsrc & Hn & Hd & Ht & Hlt & Hc & Ha & Hem & Hb &
                    Hab & HT & Ho & Hlen & Hu & HuT & Hp).
  pose proof (exactly_vec_eq Hline) as Eline.
  pose proof (exactly_vec_eq Hsrc) as Esrc.
  destruct Hn as [_ En]. destruct Hd as [_ Ed]. destruct Ht as [_ Et].
  pose proof (exactly_vec_eq Hlt) as Elt.
  pose proof (exactly_vec_eq Hc) as Ec.
  destruct Ha as [_ Ea].
  pose proof (exactly_vec_eq Hem) as Eem.
  destruct Hb as [_ Eb]. destruct Hab as [_ Eab]. destruct HT as [_ ET].
  pose proof (exactly_vec_eq Ho) as Eo.
  destruct Hlen as [_ Elen].
  pose proof (exactly_vec_eq Hu) as Eu.
  pose proof (exactly_vec_eq HuT) as EuT.
  pose proof (exactly_vec_eq Hp) as Ep.
  apply exactly_vec_finite in Hp.
  rewrite !exact_vec_of in *.
  rewrite Eline in En, Ed, Elt. rewrite Esrc in En, Ea. rewrite Eem in Eb.
  rewrite En, Ed in Et. rewrite Et in Elt. rewrite Elt in Ec.
  rewrite Ec in Eo. rewrite Eo in Elen, Eu. rewrite Elen in Eu.
  rewrite Ea, Eb in Eab. rewrite Eab in ET. rewrite Eu, ET in EuT.
  rewrite EuT in Ep.
  fold (line_of (exact_xyz root_pos) (exact_xyz end_pos)) in *.
  fold (source_point_of (exact_xyz root_pos) (exact_xyz mid_pos)) in *.
  fold (scale_val (exact_xyz root_pos) (exact_xyz mid_pos) (exact_xyz end_pos))
    in *.
  fold (closest_mid_point_of (exact_xyz root_pos) (exact_xyz end_pos)
          (scale_val (exact_xyz root_pos) (exact_xyz mid_pos)
                     (exact_xyz end_pos))) in *.
  assert (Hz : is_zero (dot (line_of root_pos end_pos)
                            (line_of root_pos end_pos)) = false).
  { apply nonzero_exact. unfold line_of. rewrite Ed.
    apply Exact.axis_nonzero, Hne. }
  assert (Hl : is_zero (length (vsub (MVector_of mid_pos)
                 (closest_mid_point_of root_pos end_pos
                    (fdiv (dot (line_of root_pos end_pos)
                               (source_point_of root_pos mid_pos))
                          (dot (line_of root_pos end_pos)
                               (line_of root_pos end_pos)))))) = false).
  { apply nonzero_exact.
    unfold closest_mid_point_of, line_of, source_point_of. rewrite Elen.
    pose proof (Exact.offset_length_pos (exact_xyz root_pos)
                  (exact_xyz mid_pos) (exact_xyz end_pos)
                  (scale_val (exact_xyz root_pos) (exact_xyz mid_pos)
                             (exact_xyz end_pos)) Hoff).
    lra. }
  eexists. split; [| split].
  - unfold value. rewrite get_pole_vec_pos_nonzero_axis by exact Hz.
    cbn [fst]. unfold pole_vector_of, offset_dir_of, normal.
    rewrite Hl. reflexivity.
  - exact Hp.
  - unfold value. rewrite Exact.get_pole_vec_pos_returns by exact Hne.
    cbn [fst]. f_equal.
    rewrite Exact.pole_vector_of_off_line by exact Hoff. cbv zeta.
    unfold total_mag_of, closest_mid_point_of, line_of, source_point_of.
    rewrite Ep. reflexivity.
Qed.

End Bridge.

Section Laws.

Context {NN : NormalOfNull float}.

Implicit Types (root_pos mid_pos end_pos : xyz float) (s : Scene float).

(** C3, amended. For every non-degenerate input and every multiplier,
    whenever no value of the run is rounded (each is finite and is the
    real result on its operands), the function returns a finite point
    whose distance from mid is
    [(|mid - root| + |end - mid|) * |multiplier|]: the absolute value of
    the multiplier, and equality, not a tolerance. *)
Theorem pole_distance_unrounded root_pos mid_pos end_pos multiplier s :
  non_degenerate (exact_xyz root_pos) (exact_xyz mid_pos) (exact_xyz end_pos) ->
  runs_unrounded root_pos mid_pos end_pos multiplier ->
  exists p,
    value (get_pole_vec_pos root_pos mid_pos end_pos multiplier) s = Ok p /\
    finite_vec p = true /\
    length (vsub (exact_vec p) (MVector_of (exact_xyz mid_pos))) =
    (length (vsub (MVector_of (exact_xyz mid_pos))
                  (MVector_of (exact_xyz root_pos))) +
     length (vsub (MVector_of (exact_xyz end_pos))
                  (MVector_of (exact_xyz mid_pos)))) *
    Rabs (exact multiplier).
Proof.
  intros Hnd Hrun.
  destruct (unrounded_run (NR := maya_normal_of_null) s empty_scene Hnd Hrun)
    as (p & Hp & Hfin & HpR).
  destruct (@Exact.exact_pole_distance_from_mid maya_normal_of_null _ _ _
              (exact multiplier) empty_scene Hnd) as (p' & Hp' & Hdist).
  rewrite HpR in Hp'. injection Hp' as <-.
  exists p. auto.
Qed.

(** C4, amended. For every non-degenerate input, whenever no value of
    the run is rounded, the returned pole lies on the line through root
    and end exactly when
    [(|mid - root| + |end - mid|) * multiplier = - |mid - closest|]; so
    never for a multiplier [>= 0]. *)
Theorem pole_collinear_unrounded root_pos mid_pos end_pos multiplier s :
  non_degenerate (exact_xyz root_pos) (exact_xyz mid_pos) (exact_xyz end_pos) ->
  runs_unrounded root_pos mid_pos end_pos multiplier ->
  exists p,
    value (get_pole_vec_pos root_pos mid_pos end_pos multiplier) s = Ok p /\
    finite_vec p = true /\
    (on_line (MVector_of (exact_xyz root_pos)) (MVector_of (exact_xyz end_pos))
             (exact_vec p) <->
     (length (vsub (MVector_of (exact_xyz mid_pos))
                   (MVector_of (exact_xyz root_pos))) +
      length (vsub (MVector_of (exact_xyz end_pos))
                   (MVector_of (exact_xyz mid_pos)))) * exact multiplier =
     - length (vsub (MVector_of (exact_xyz mid_pos))
                    (formula_closest (MVector_of (exact_xyz root_pos))
                                  (MVector_of (exact_xyz mid_pos))
                                  (MVector_of (exact_xyz end_pos))))) /\
    (0 <= exact multiplier ->
     ~ on_line (MVector_of (exact_xyz root_pos))
               (MVector_of (exact_xyz end_pos)) (exact_vec p)).
Proof.
  intros Hnd Hrun.
  destruct (unrounded_run (NR := maya_normal_of_null) s empty_scene Hnd Hrun)
    as (p & Hp & Hfin & HpR).
  destruct (@Exact.exact_pole_collinear_iff maya_normal_of_null _ _ _
              (exact multiplier) empty_scene Hnd) as (p' & Hp' & Hiff & Hpos).
  rewrite HpR in Hp'. injection Hp' as <-.
  exists p. auto.
Qed.

(** C8, amended. Scaling law: for every non-degenerate input and every
    [k], whenever no value is rounded in the run for [k] nor in the run
    for [1], the pole for [k] is [mid + k * (pole for 1 - mid)]. *)
Theorem pole_scaling_unrounded root_pos mid_pos end_pos k s :
  non_degenerate (exact_xyz root_pos) (exact_xyz mid_pos) (exact_xyz end_pos) ->
  runs_unrounded root_pos mid_pos end_pos 1%float ->
  runs_unrounded root_pos mid_pos end_pos k ->
  exists p1 pk,
    value (get_pole_vec_pos root_pos mid_pos end_pos 1%float) s = Ok p1 /\
    value (get_pole_vec_pos root_pos mid_pos end_pos k) s = Ok pk /\
    finite_vec p1 = true /\ finite_vec pk = true /\
    exact_vec pk =
    vadd (MVector_of (exact_xyz mid_pos))
         (vscale (vsub (exact_vec p1) (MVector_of (exact_xyz mid_pos)))
                 (exact k)).
Proof.
  intros Hnd Hrun1 Hrunk.
  destruct (unrounded_run (NR := maya_normal_of_null) s empty_scene Hnd Hrun1)
    as (p1 & Hp1 & Hfin1 & Hp1R).
  destruct (unrounded_run (NR := maya_normal_of_null) s empty_scene Hnd Hrunk)
    as (pk & Hpk & Hfink & HpkR).
  destruct (@Exact.exact_pole_scaling_law maya_normal_of_null _ _ _
              (exact k) empty_scene Hnd) as (p1' & pk' & Hp1' & Hpk' & Hlaw).
  rewrite exact_one in Hp1R.
  rewrite Hp1R in Hp1'. injection Hp1' as <-.
  rewrite HpkR in Hpk'. injection Hpk' as <-.
  exists p1, pk. auto 6.
Qed.

(** C10, amended. For every non-degenerate input and every multiplier,
    whenever no value of the run is rounded, the offset from mid to the
    returned pole is perpendicular to the root-end axis:
    [(result - mid) . (end - root) = 0]. *)
Theorem pole_perpendicular_unrounded root_pos mid_pos end_pos multiplier s :
  non_degenerate (exact_xyz root_pos) (exact_xyz mid_pos) (exact_xyz end_pos) ->
  runs_unrounded root_pos mid_pos end_pos multiplier ->
  exists p,
    value (get_pole_vec_pos root_pos mid_pos end_pos multiplier) s = Ok p /\
    finite_vec p = true /\
    dot (vsub (exact_vec p) (MVector_of (exact_xyz mid_pos)))
        (vsub (MVector_of (exact_xyz end_pos))
              (MVector_of (exact_xyz root_pos))) = 0.
Proof.
  intros Hnd Hrun.
  destruct (unrounded_run (NR := maya_normal_of_null) s empty_scene Hnd Hrun)
    as (p & Hp & Hfin & HpR).
  destruct (@Exact.exact_pole_offset_perpendicular maya_normal_of_null _ _ _
              (exact multiplier) empty_scene Hnd) as (p' & Hp' & Hperp).
  rewrite HpR in Hp'. injection Hp' as <-.
  exists p. auto.
Qed.

(** X8. Whenever no value of the run is rounded, on a non-degenerate
    input, the returned pole lies on the ray from the closest point
    through mid: it is [closest + lambda * (mid - closest)], with
    [lambda >= 1] (at mid or beyond it, on mid's side of the axis) when
    the multiplier is not negative, and [lambda < 1] when it is. *)
Theorem pole_on_ray_unrounded root_pos mid_pos end_pos multiplier s :
  non_degenerate (exact_xyz root_pos) (exact_xyz mid_pos) (exact_xyz end_pos) ->
  runs_unrounded root_pos mid_pos end_pos multiplier ->
  exists p lambda,
    value (get_pole_vec_pos root_pos mid_pos end_pos multiplier) s = Ok p /\
    finite_vec p = true /\
    exact_vec p =
    vadd (formula_closest (MVector_of (exact_xyz root_pos))
                          (MVector_of (exact_xyz mid_pos))
                          (MVector_of (exact_xyz end_pos)))
         (vscale (vsub (MVector_of (exact_xyz mid_pos))
                       (formula_closest (MVector_of (exact_xyz root_pos))
                                        (MVector_of (exact_xyz mid_pos))
                                        (MVector_of (exact_xyz end_pos))))
                 lambda) /\
    (0 <= exact multiplier -> 1 <= lambda) /\
    (exact multiplier < 0 -> lambda < 1).
Proof.
  intros Hnd Hrun.
  destruct (unrounded_run (NR := maya_normal_of_null) s empty_scene Hnd Hrun)
    as (p & Hp & Hfin & HpR).
  destruct (@Exact.exact_pole_on_ray maya_normal_of_null _ _ _
              (exact multiplier) empty_scene Hnd)
    as (p' & lambda & Hp' & Hray & Hpos & Hneg).
  rewrite HpR in Hp'. injection Hp' as <-.
  exists p, lambda. auto 6.
Qed.

End Laws.

End Unrounded.

(** * Concrete binary64 inputs, and the numbers they stand for *)

(** Replaces [exact a], for each float [a] of the goal, by the fraction
    it stands for. *)
Ltac exact_values :=
  repeat match goal with
  | |- context [exact ?a] =>
      let q := eval vm_compute in (exactQ a) in
      change (exact a) with (Q2R q)
  end.

Ltac fractions := unfold Q2R; cbn [Qnum Qden].

(** Proves [non_degenerate] of the numbers three float positions stand
    for. *)
Ltac exact_non_degenerate :=
  let H := fresh "H" in
  let u := fresh "u" in
  split;
  [ intros H; unfold exact_xyz in H; cbv beta iota in H; injection H;
    exact_values; fractions; intros; lra
  | intros [u H]; unfold exact_xyz, MVector_of, vadd, vscale, vsub in H;
    cbv beta iota in H; cbn [vx vy vz fadd fsub fmul R_Scalar] in H;
    injection H; exact_values; fractions; intros; lra ].

(** Proves that a run on given floats is unrounded, value by value. *)
Ltac unrounded :=
  unfold runs_unrounded, exactly_vec; cbv zeta;
  repeat match goal with |- _ /\ _ => split end;
  (split; [vm_compute; reflexivity |]);
  unfold exact_vec; exact_values;
  unfold length, dot, vsub, vadd, vscale, vdiv;
  cbn [vx vy vz fadd fsub fmul fdiv fsqrt R_Scalar];
  fractions;
  first [ lra | symmetry; apply sqrt_lem_1; lra ].

(** ** Concrete runs *)

Module Concrete.

Open Scope R_scope.
Local Open Scope float_scope.

(** C2, on the scenario of the specification, in binary64. *)
Lemma pole_follows_formula_witness :
  (forall a b : float, fadd a b = fadd b a) /\
  is_zero (dot (vsub (MVector_of (2, 0, 0)) (MVector_of (0, 0, 0)))
               (vsub (MVector_of (2, 0, 0)) (MVector_of (0, 0, 0)))) = false /\
  is_zero (length (vsub (MVector_of (0, 1, 0))
                        (formula_closest (MVector_of (0, 0, 0))
                                         (MVector_of (0, 1, 0))
                                         (MVector_of (2, 0, 0))))) = false /\
  value (get_pole_vec_pos (0, 0, 0) (0, 1, 0) (2, 0, 0) 1) empty_scene =
  Ok (formula_pole (MVector_of (0, 0, 0)) (MVector_of (0, 1, 0))
                   (MVector_of (2, 0, 0)) 1).
Proof.
  split; [intros a b; apply Binary64.float_add_comm |].
  split; [vm_compute; reflexivity |].
  split; [vm_compute; reflexivity |].
  apply (proj2 (@pole_follows_formula float float_Scalar maya_normal_of_null
                  Binary64.float_add_comm (0, 0, 0) (0, 1, 0) (2, 0, 0) 1
                  empty_scene));
    vm_compute; reflexivity.
Defined.

(** C2 as stated fails: root [(0,0,0)], mid [(0,1,0)] and end
    [(2^-600,0,0)] are apart and not in line, the multiplier is finite,
    and the function raises: the square of [2^-600] underflows to zero. *)
Lemma formula_lost_to_underflow :
  non_degenerate (exact_xyz (0, 0, 0)) (exact_xyz (0, 1, 0))
                 (exact_xyz (0x1p-600, 0, 0)) /\
  finite 1 = true /\
  value (get_pole_vec_pos (0, 0, 0) (0, 1, 0) (0x1p-600, 0, 0) 1)
        empty_scene = Raise ZeroDivisionError.
Proof.
  split; [exact_non_degenerate |].
  split; vm_compute; reflexivity.
Qed.

(** C3, on the 3-4-5 triangle with multiplier [-1]. *)
Lemma pole_distance_unrounded_witness :
  non_degenerate (exact_xyz (0, 0, 0)) (exact_xyz (0, 3, 0))
                 (exact_xyz (4, 0, 0)) /\
  runs_unrounded (0, 0, 0) (0, 3, 0) (4, 0, 0) (-1) /\
  exists p,
    value (get_pole_vec_pos (0, 0, 0) (0, 3, 0) (4, 0, 0) (-1)) empty_scene =
    Ok p /\
    finite_vec p = true /\
    length (vsub (exact_vec p) (MVector_of (exact_xyz (0, 3, 0)))) =
    ((length (vsub (MVector_of (exact_xyz (0, 3, 0)%float))
                   (MVector_of (exact_xyz (0, 0, 0)%float))) +
      length (vsub (MVector_of (exact_xyz (4, 0, 0)%float))
                   (MVector_of (exact_xyz (0, 3, 0)%float)))) *
     Rabs (exact (-1)))%R.
Proof.
  assert (Hnd : non_degenerate (exact_xyz (0, 0, 0)) (exact_xyz (0, 3, 0))
                               (exact_xyz (4, 0, 0)))
    by exact_non_degenerate.
  assert (Hrun : runs_unrounded (0, 0, 0) (0, 3, 0) (4, 0, 0) (-1))
    by unrounded.
  split; [exact Hnd | split; [exact Hrun |]].
  apply (@Unrounded.pole_distance_unrounded maya_normal_of_null
           (0, 0, 0) (0, 3, 0) (4, 0, 0) (-1) empty_scene Hnd Hrun).
Defined.

(** C3 as stated fails.  On the 3-4-5 triangle with multiplier [-1] the
    pole is [(0,-5,0)], at distance [8] from mid, where the stated
    law gives [-8].  With root [(0,0,0)], mid [(0,1e200,0)], end [(1e200,0,0)]
    and multiplier [1], finite and not in line, the squares overflow and
    the pole is NaN in every coordinate: it has no distance from mid.
    And with the scenario of the specification moved to
    [(1e12,1e12,0)], multiplier [1], the pole is finite and its distance
    from mid is off [1 + sqrt 5] by more than [1e-6] of it. *)
Lemma distance_law_fails :
  (non_degenerate (exact_xyz (0, 0, 0)) (exact_xyz (0, 3, 0))
                  (exact_xyz (4, 0, 0)) /\
   value (get_pole_vec_pos (0, 0, 0) (0, 3, 0) (4, 0, 0) (-1)) empty_scene =
   Ok (mkMVector 0 (-5) 0) /\
   length (vsub (exact_vec (mkMVector 0 (-5) 0))
                (MVector_of (exact_xyz (0, 3, 0)))) = 8%R /\
   ((length (vsub (MVector_of (exact_xyz (0, 3, 0)%float))
                  (MVector_of (exact_xyz (0, 0, 0)%float))) +
     length (vsub (MVector_of (exact_xyz (4, 0, 0)%float))
                  (MVector_of (exact_xyz (0, 3, 0)%float)))) *
    exact (-1) = -8)%R) /\
  (finite_xyz (0, 1e200, 0) = true /\ finite_xyz (1e200, 0, 0) = true /\
   non_degenerate (exact_xyz (0, 0, 0)) (exact_xyz (0, 1e200, 0))
                  (exact_xyz (1e200, 0, 0)) /\
   value (get_pole_vec_pos (0, 0, 0) (0, 1e200, 0) (1e200, 0, 0) 1)
         empty_scene = Ok (mkMVector nan nan nan)) /\
  (non_degenerate (exact_xyz (1e12, 1e12, 0))
                  (exact_xyz (1e12, 1000000000001, 0))
                  (exact_xyz (1000000000002, 1e12, 0)) /\
   exists p,
     value (get_pole_vec_pos (1e12, 1e12, 0) (1e12, 1000000000001, 0)
                             (1000000000002, 1e12, 0) 1) empty_scene = Ok p /\
     finite_vec p = true /\
     (1e-6 *
      ((length (vsub (MVector_of (exact_xyz (1e12, 1000000000001, 0)%float))
                     (MVector_of (exact_xyz (1e12, 1e12, 0)%float))) +
        length (vsub (MVector_of (exact_xyz (1000000000002, 1e12, 0)%float))
                     (MVector_of (exact_xyz (1e12, 1000000000001, 0)%float)))) *
       exact 1) <
      Rabs (length (vsub (exact_vec p)
                         (MVector_of (exact_xyz (1e12, 1000000000001, 0)%float))) -
            (length (vsub (MVector_of (exact_xyz (1e12, 1000000000001, 0)%float))
                          (MVector_of (exact_xyz (1e12, 1e12, 0)%float))) +
             length (vsub (MVector_of (exact_xyz (1000000000002, 1e12, 0)%float))
                          (MVector_of (exact_xyz (1e12, 1000000000001, 0)%float)))) *
            exact 1))%R).
Proof.
  split; [| split].
  3: {
    split; [exact_non_degenerate |].
    eexists.
    split; [vm_compute; reflexivity |].
    split; [vm_compute; reflexivity |].
    unfold exact_vec, exact_xyz, MVector_of, vsub. cbv beta iota.
    cbn [vx vy vz fsub R_Scalar]. exact_values. fractions.
    assert (Hs : (2.23606 < sqrt 5 < 2.23607)%R).
    { pose proof (sqrt_pos 5). pose proof (sqrt_sqrt 5 ltac:(lra)). nra. }
    rewrite (@Exact.length_mk _ _ _ 1) by lra.
    rewrite (@Exact.length_mk _ _ _ (sqrt 5))
      by (try apply sqrt_pos; rewrite sqrt_sqrt by lra; lra).
    rewrite (@Exact.length_mk _ _ _ (26510 / 8192)) by lra.
    rewrite Rabs_pos_eq by lra. lra. }
  - split; [exact_non_degenerate |].
    split; [vm_compute; reflexivity |].
    unfold exact_vec, exact_xyz, MVector_of, vsub. cbv beta iota.
    cbn [vx vy vz fsub R_Scalar]. exact_values. fractions.
    split.
    + apply Exact.length_mk; lra.
    + rewrite (@Exact.length_mk _ _ _ 3), (@Exact.length_mk _ _ _ 5) by lra.
      lra.
  - split; [vm_compute; reflexivity |].
    split; [vm_compute; reflexivity |].
    split; [exact_non_degenerate | vm_compute; reflexivity].
Qed.

(** C4, on the 3-4-5 triangle with multiplier [-0.375], which brings the
    pole onto root. *)
Lemma pole_collinear_unrounded_witness :
  non_degenerate (exact_xyz (0, 0, 0)) (exact_xyz (0, 3, 0))
                 (exact_xyz (4, 0, 0)) /\
  runs_unrounded (0, 0, 0) (0, 3, 0) (4, 0, 0) (-0.375) /\
  exists p,
    value (get_pole_vec_pos (0, 0, 0) (0, 3, 0) (4, 0, 0) (-0.375))
          empty_scene = Ok p /\
    finite_vec p = true /\
    (on_line (MVector_of (exact_xyz (0, 0, 0))) (MVector_of (exact_xyz (4, 0, 0)))
             (exact_vec p) <->
     ((length (vsub (MVector_of (exact_xyz (0, 3, 0)%float))
                    (MVector_of (exact_xyz (0, 0, 0)%float))) +
       length (vsub (MVector_of (exact_xyz (4, 0, 0)%float))
                    (MVector_of (exact_xyz (0, 3, 0)%float)))) *
      exact (-0.375) =
      - length (vsub (MVector_of (exact_xyz (0, 3, 0)%float))
                     (formula_closest (MVector_of (exact_xyz (0, 0, 0)%float))
                                   (MVector_of (exact_xyz (0, 3, 0)%float))
                                   (MVector_of (exact_xyz (4, 0, 0)%float)))))%R) /\
    ((0 <= exact (-0.375))%R ->
     ~ on_line (MVector_of (exact_xyz (0, 0, 0)))
               (MVector_of (exact_xyz (4, 0, 0))) (exact_vec p)).
Proof.
  assert (Hnd : non_degenerate (exact_xyz (0, 0, 0)) (exact_xyz (0, 3, 0))
                               (exact_xyz (4, 0, 0)))
    by exact_non_degenerate.
  assert (Hrun : runs_unrounded (0, 0, 0) (0, 3, 0) (4, 0, 0) (-0.375))
    by unrounded.
  split; [exact Hnd | split; [exact Hrun |]].
  apply (@Unrounded.pole_collinear_unrounded maya_normal_of_null
           (0, 0, 0) (0, 3, 0) (4, 0, 0) (-0.375) empty_scene Hnd Hrun).
Defined.

(** C4 as stated fails.  On the 3-4-5 triangle the multiplier [-0.375],
    which is not zero, returns root itself.  And on root [(0,0,0)], mid
    [(0,1,0)], end [(1,0,0)] the multiplier [-0.4142135623730951]
    returns root as well, by rounding: in exact arithmetic
    [(1 + sqrt 2) * multiplier] is not [-1] for this multiplier. *)
Lemma collinear_law_fails :
  (non_degenerate (exact_xyz (0, 0, 0)) (exact_xyz (0, 3, 0))
                  (exact_xyz (4, 0, 0)) /\
   exact (-0.375) <> 0%R /\
   value (get_pole_vec_pos (0, 0, 0) (0, 3, 0) (4, 0, 0) (-0.375))
         empty_scene = Ok (mkMVector 0 0 0) /\
   on_line (MVector_of (exact_xyz (0, 0, 0))) (MVector_of (exact_xyz (4, 0, 0)))
           (exact_vec (mkMVector 0 0 0))) /\
  (non_degenerate (exact_xyz (0, 0, 0)) (exact_xyz (0, 1, 0))
                  (exact_xyz (1, 0, 0)) /\
   exact (-0.4142135623730951) <> 0%R /\
   value (get_pole_vec_pos (0, 0, 0) (0, 1, 0) (1, 0, 0)
                           (-0.4142135623730951))
         empty_scene = Ok (mkMVector 0 0 0) /\
   on_line (MVector_of (exact_xyz (0, 0, 0))) (MVector_of (exact_xyz (1, 0, 0)))
           (exact_vec (mkMVector 0 0 0)) /\
   ((length (vsub (MVector_of (exact_xyz (0, 1, 0)%float))
                  (MVector_of (exact_xyz (0, 0, 0)%float))) +
     length (vsub (MVector_of (exact_xyz (1, 0, 0)%float))
                  (MVector_of (exact_xyz (0, 1, 0)%float)))) *
    exact (-0.4142135623730951) <>
    - length (vsub (MVector_of (exact_xyz (0, 1, 0)%float))
                   (formula_closest (MVector_of (exact_xyz (0, 0, 0)%float))
                                 (MVector_of (exact_xyz (0, 1, 0)%float))
                                 (MVector_of (exact_xyz (1, 0, 0)%float)))))%R).
Proof.
  split.
  - split; [exact_non_degenerate |].
    split; [exact_values; fractions; lra |].
    split; [vm_compute; reflexivity |].
    exists 0%R. unfold exact_vec, exact_xyz, MVector_of, vadd, vscale, vsub.
    cbv beta iota. cbn [vx vy vz fadd fsub fmul R_Scalar].
    exact_values. fractions. f_equal; lra.
  - split; [exact_non_degenerate |].
    split; [exact_values; fractions; lra |].
    split; [vm_compute; reflexivity |].
    split.
    + exists 0%R. unfold exact_vec, exact_xyz, MVector_of, vadd, vscale, vsub.
      cbv beta iota. cbn [vx vy vz fadd fsub fmul R_Scalar].
      exact_values. fractions. f_equal; lra.
    + unfold formula_closest, exact_xyz, MVector_of, vadd, vscale, vsub, dot.
      cbv beta iota. cbn [vx vy vz fadd fsub fmul fdiv R_Scalar].
      exact_values. fractions.
      rewrite (@Exact.length_mk _ _ _ 1) by lra.
      rewrite (@Exact.length_mk _ _ _ (sqrt 2)).
      * rewrite (@Exact.length_mk _ _ _ 1) by (try lra; field).
        pose proof (sqrt_sqrt 2 ltac:(lra)) as Hs.
        intros H.
        assert (Hq : sqrt 2 = (10552590328860877 / 7461808180621107)%R)
          by lra.
        rewrite Hq in Hs. lra.
      * apply sqrt_pos.
      * rewrite sqrt_sqrt by lra. lra.
Qed.

(** C5, with mid [(1,0,0)] on the segment from [(0,0,0)] to [(2,0,0)]. *)
Lemma pole_whatever_the_offset_witness :
  is_zero (dot (line_of (0, 0, 0) (2, 0, 0)) (line_of (0, 0, 0) (2, 0, 0))) =
  false /\
  let t := fdiv (dot (line_of (0, 0, 0) (2, 0, 0))
                     (source_point_of (0, 0, 0) (1, 0, 0)))
                (dot (line_of (0, 0, 0) (2, 0, 0))
                     (line_of (0, 0, 0) (2, 0, 0))) in
  let offset := vsub (MVector_of (1, 0, 0))
                     (closest_mid_point_of (0, 0, 0) (2, 0, 0) t) in
  value (get_pole_vec_pos (0, 0, 0) (1, 0, 0) (2, 0, 0) 1) empty_scene =
  Ok (vadd (vscale (if is_zero (length offset)
                    then normal_of_null offset
                    else vdiv offset (length offset))
                   (total_mag_of (0, 0, 0) (1, 0, 0) (2, 0, 0) 1))
           (MVector_of (1, 0, 0))).
Proof.
  split; [vm_compute; reflexivity |].
  apply (@pole_whatever_the_offset float float_Scalar maya_normal_of_null
           (0, 0, 0) (1, 0, 0) (2, 0, 0) 1 empty_scene).
  vm_compute. reflexivity.
Defined.

(** C5 as stated fails: with mid on the line through root and end the
    function returns, no error and no default axis.  With mid [(1,0,0)]
    between [(0,0,0)] and [(2,0,0)] the computed offset is null and the
    answer is mid.  With mid [(0.1,0.1,0.1)] between [(0,0,0)] and
    [(0.3,0.3,0.3)] the computed offset is what rounding left of it, and
    the answer is [(0.4,0.4,0.4)], a point further along the axis. *)
Lemma mid_on_line_returns :
  (exact_xyz (0, 0, 0) <> exact_xyz (2, 0, 0) /\
   on_line (MVector_of (exact_xyz (0, 0, 0))) (MVector_of (exact_xyz (2, 0, 0)))
           (MVector_of (exact_xyz (1, 0, 0))) /\
   value (get_pole_vec_pos (0, 0, 0) (1, 0, 0) (2, 0, 0) 1) empty_scene =
   Ok (mkMVector 1 0 0)) /\
  (exact_xyz (0, 0, 0) <> exact_xyz (0.3, 0.3, 0.3) /\
   on_line (MVector_of (exact_xyz (0, 0, 0)))
           (MVector_of (exact_xyz (0.3, 0.3, 0.3)))
           (MVector_of (exact_xyz (0.1, 0.1, 0.1))) /\
   value (get_pole_vec_pos (0, 0, 0) (0.1, 0.1, 0.1) (0.3, 0.3, 0.3) 1)
         empty_scene = Ok (mkMVector 0.4 0.4 0.4)).
Proof.
  split.
  - split.
    { intros H. unfold exact_xyz in H. cbv beta iota in H. injection H.
      exact_values. fractions. intros. lra. }
    split; [| vm_compute; reflexivity].
    exists (/ 2)%R. unfold exact_xyz, MVector_of, vadd, vscale, vsub.
    cbv beta iota. cbn [vx vy vz fadd fsub fmul R_Scalar].
    exact_values. fractions. f_equal; lra.
  - split.
    { intros H. unfold exact_xyz in H. cbv beta iota in H. injection H.
      exact_values. fractions. intros. lra. }
    split; [| vm_compute; reflexivity].
    exists (exact 0.1 / exact 0.3)%R.
    unfold exact_xyz, MVector_of, vadd, vscale, vsub.
    cbv beta iota. cbn [vx vy vz fadd fsub fmul R_Scalar].
    exact_values. fractions. f_equal; lra.
Qed.

(** C8, on the 3-4-5 triangle with [k = 2]. *)
Lemma pole_scaling_unrounded_witness :
  non_degenerate (exact_xyz (0, 0, 0)) (exact_xyz (0, 3, 0))
                 (exact_xyz (4, 0, 0)) /\
  runs_unrounded (0, 0, 0) (0, 3, 0) (4, 0, 0) 1 /\
  runs_unrounded (0, 0, 0) (0, 3, 0) (4, 0, 0) 2 /\
  exists p1 pk,
    value (get_pole_vec_pos (0, 0, 0) (0, 3, 0) (4, 0, 0) 1) empty_scene =
    Ok p1 /\
    value (get_pole_vec_pos (0, 0, 0) (0, 3, 0) (4, 0, 0) 2) empty_scene =
    Ok pk /\
    finite_vec p1 = true /\ finite_vec pk = true /\
    exact_vec pk =
    vadd (MVector_of (exact_xyz (0, 3, 0)))
         (vscale (vsub (exact_vec p1) (MVector_of (exact_xyz (0, 3, 0))))
                 (exact 2)).
Proof.
  assert (Hnd : non_degenerate (exact_xyz (0, 0, 0)) (exact_xyz (0, 3, 0))
                               (exact_xyz (4, 0, 0)))
    by exact_non_degenerate.
  assert (Hrun1 : runs_unrounded (0, 0, 0) (0, 3, 0) (4, 0, 0) 1)
    by unrounded.
  assert (Hrunk : runs_unrounded (0, 0, 0) (0, 3, 0) (4, 0, 0) 2)
    by unrounded.
  split; [exact Hnd | split; [exact Hrun1 | split; [exact Hrunk |]]].
  apply (@Unrounded.pole_scaling_unrounded maya_normal_of_null
           (0, 0, 0) (0, 3, 0) (4, 0, 0) 2 empty_scene Hnd Hrun1 Hrunk).
Defined.

(** C8 as stated fails: with root [(0,0,0)], mid [(0,0.7,0)], end
    [(0.5,0,0)] and [k = 3], the pole for [k] is not
    [mid + k * (pole for 1 - mid)], neither as the numbers the floats
    stand for nor when the right-hand side is evaluated in binary64. *)
Lemma scaling_law_fails :
  non_degenerate (exact_xyz (0, 0, 0)) (exact_xyz (0, 0.7, 0))
                 (exact_xyz (0.5, 0, 0)) /\
  exists p1 pk,
    value (get_pole_vec_pos (0, 0, 0) (0, 0.7, 0) (0.5, 0, 0) 1) empty_scene =
    Ok p1 /\
    value (get_pole_vec_pos (0, 0, 0) (0, 0.7, 0) (0.5, 0, 0) 3) empty_scene =
    Ok pk /\
    finite_vec p1 = true /\ finite_vec pk = true /\
    exact_vec pk <>
    vadd (MVector_of (exact_xyz (0, 0.7, 0)))
         (vscale (vsub (exact_vec p1) (MVector_of (exact_xyz (0, 0.7, 0))))
                 (exact 3)) /\
    PrimFloat.eqb
      (vy pk)
      (vy (vadd (MVector_of (0, 0.7, 0))
                (vscale (vsub p1 (MVector_of (0, 0.7, 0))) 3))) = false.
Proof.
  split; [exact_non_degenerate |].
  eexists. eexists.
  split; [vm_compute; reflexivity |].
  split; [vm_compute; reflexivity |].
  split; [vm_compute; reflexivity |].
  split; [vm_compute; reflexivity |].
  split; [| vm_compute; reflexivity].
  unfold exact_vec, exact_xyz, MVector_of, vadd, vscale, vsub.
  cbv beta iota. cbn [vx vy vz fadd fsub fmul R_Scalar].
  intros H. injection H.
  exact_values. fractions. intros. lra.
Qed.

(** C10, on the 3-4-5 triangle moved to root [(1,1,0)], with multiplier
    [0.5]. *)
Lemma pole_perpendicular_unrounded_witness :
  non_degenerate (exact_xyz (1, 1, 0)) (exact_xyz (1, 4, 0))
                 (exact_xyz (5, 1, 0)) /\
  runs_unrounded (1, 1, 0) (1, 4, 0) (5, 1, 0) 0.5 /\
  exists p,
    value (get_pole_vec_pos (1, 1, 0) (1, 4, 0) (5, 1, 0) 0.5) empty_scene =
    Ok p /\
    finite_vec p = true /\
    dot (vsub (exact_vec p) (MVector_of (exact_xyz (1, 4, 0))))
        (vsub (MVector_of (exact_xyz (5, 1, 0)))
              (MVector_of (exact_xyz (1, 1, 0)))) = 0%R.
Proof.
  assert (Hnd : non_degenerate (exact_xyz (1, 1, 0)) (exact_xyz (1, 4, 0))
                               (exact_xyz (5, 1, 0)))
    by exact_non_degenerate.
  assert (Hrun : runs_unrounded (1, 1, 0) (1, 4, 0) (5, 1, 0) 0.5)
    by unrounded.
  split; [exact Hnd | split; [exact Hrun |]].
  apply (@Unrounded.pole_perpendicular_unrounded maya_normal_of_null
           (1, 1, 0) (1, 4, 0) (5, 1, 0) 0.5 empty_scene Hnd Hrun).
Defined.

(** C10 as stated fails: with root [(1,2,3)], mid [(1.7,2.7,3.7)], end
    [(2.1,3.1,4.1)] and multiplier [1], three finite positions that are
    apart and not in line, the offset from mid to the returned pole is far
    from perpendicular to the axis: their dot product is above [0.9]. *)
Lemma perpendicular_law_fails :
  non_degenerate (exact_xyz (1, 2, 3)) (exact_xyz (1.7, 2.7, 3.7))
                 (exact_xyz (2.1, 3.1, 4.1)) /\
  exists p,
    value (get_pole_vec_pos (1, 2, 3) (1.7, 2.7, 3.7) (2.1, 3.1, 4.1) 1)
          empty_scene = Ok p /\
    finite_vec p = true /\
    (0.9 < dot (vsub (exact_vec p) (MVector_of (exact_xyz (1.7, 2.7, 3.7)%float)))
               (vsub (MVector_of (exact_xyz (2.1, 3.1, 4.1)%float))
                     (MVector_of (exact_xyz (1, 2, 3)%float))))%R.
Proof.
  split; [exact_non_degenerate |].
  eexists.
  split; [vm_compute; reflexivity |].
  split; [vm_compute; reflexivity |].
  unfold exact_vec, exact_xyz, MVector_of, vsub, dot.
  cbv beta iota. cbn [vx vy vz fadd fsub fmul R_Scalar].
  exact_values. fractions. lra.
Qed.

(** X8, on the 3-4-5 triangle with multiplier [2]. *)
Lemma pole_on_ray_unrounded_witness :
  non_degenerate (exact_xyz (0, 0, 0)) (exact_xyz (0, 3, 0))
                 (exact_xyz (4, 0, 0)) /\
  runs_unrounded (0, 0, 0) (0, 3, 0) (4, 0, 0) 2 /\
  exists p lambda,
    value (get_pole_vec_pos (0, 0, 0) (0, 3, 0) (4, 0, 0) 2) empty_scene =
    Ok p /\
    finite_vec p = true /\
    exact_vec p =
    vadd (formula_closest (MVector_of (exact_xyz (0, 0, 0)))
                          (MVector_of (exact_xyz (0, 3, 0)))
                          (MVector_of (exact_xyz (4, 0, 0))))
         (vscale (vsub (MVector_of (exact_xyz (0, 3, 0)))
                       (formula_closest (MVector_of (exact_xyz (0, 0, 0)))
                                        (MVector_of (exact_xyz (0, 3, 0)))
                                        (MVector_of (exact_xyz (4, 0, 0)))))
                 lambda) /\
    ((0 <= exact 2)%R -> (1 <= lambda)%R) /\
    ((exact 2 < 0)%R -> (lambda < 1)%R).
Proof.
  assert (Hnd : non_degenerate (exact_xyz (0, 0, 0)) (exact_xyz (0, 3, 0))
                               (exact_xyz (4, 0, 0)))
    by exact_non_degenerate.
  assert (Hrun : runs_unrounded (0, 0, 0) (0, 3, 0) (4, 0, 0) 2)
    by unrounded.
  split; [exact Hnd | split; [exact Hrun |]].
  apply (@Unrounded.pole_on_ray_unrounded maya_normal_of_null
           (0, 0, 0) (0, 3, 0) (4, 0, 0) 2 empty_scene Hnd Hrun).
Defined.

End Concrete.

(** * The entry point *)

Section EntryPoint.

Context {F : Type} {SF : Scalar F} {NN : NormalOfNull F}.

(** With a number of selected joints other than three, [main] stops at
    [cmds.error] and the scene is as it was. *)
Lemma main_wrong_count (s : Scene F) :
  List.length (selected Joint s) <> 3%nat ->
  main s = (Raise (RuntimeError "Select three joints"), s).
Proof.
  intros Hn. unfold main, bind, ls_selection.
  destruct (Nat.eqb_spec (List.length (selected Joint s)) 3) as [E | _];
    [contradiction | reflexivity].
Qed.

(** C7. For every selection whose number of joints is not three, [main]
    fails with the error of [cmds.error] and places no locator: the scene,
    and so its locators, are unchanged. *)
Theorem wrong_selection_raises (s : Scene F) :
  List.length (selected Joint s) <> 3%nat ->
  value main s = Raise (RuntimeError "Select three joints") /\
  after main s = s /\
  locators (after main s) = locators s.
Proof.
  intros Hn. unfold value, after. rewrite main_wrong_count by exact Hn. cbn [fst snd].
  repeat split.
Qed.

End EntryPoint.

(** C7, on a selection of two joints. *)
Lemma wrong_selection_raises_witness :
  List.length
    (selected Joint (mkScene rig ["shoulder"; "elbow"]%string [])) <> 3%nat /\
  value main (mkScene rig ["shoulder"; "elbow"]%string []) =
    Raise (RuntimeError "Select three joints") /\
  after main (mkScene rig ["shoulder"; "elbow"]%string []) =
    mkScene rig ["shoulder"; "elbow"]%string [] /\
  locators (after main (mkScene rig ["shoulder"; "elbow"]%string [])) =
    locators (mkScene rig ["shoulder"; "elbow"]%string []).
Proof.
  split; [vm_compute; discriminate |].
  apply (@wrong_selection_raises float _ _
           (mkScene rig ["shoulder"; "elbow"]%string [])).
  vm_compute. discriminate.
Defined.

(** Four nodes selected, three of them joints: the locator is not
    counted, and [main] goes through. *)
Example four_selected_three_joints :
  value main
    (mkScene rig ["shoulder"; "elbow"; "wrist"; "locator1"]%string []) =
  Ok tt.
Proof. vm_compute. reflexivity. Qed.

(** Three joints selected: [main] returns, a second locator stands at the
    pole, it is the selection, and the pole was printed. *)
Example main_places_locator :
  main (mkScene rig ["shoulder"; "elbow"; "wrist"]%string []) =
  (Ok tt,
   mkScene
     (rig ++ [mkNode "locator2" Locator
                (0, 4.2360679774997898, 0)%float])
     ["locator2"%string]
     [(0, 4.2360679774997898, 0)%float]).
Proof. vm_compute. reflexivity. Qed.

(** Three joints selected, root and end at the same place: the division
    raises before any locator is made. *)
Example main_degenerate_axis :
  main (mkScene rig ["shoulder"; "elbow"; "shoulder"]%string []) =
  (Raise ZeroDivisionError,
   mkScene rig ["shoulder"; "elbow"; "shoulder"]%string []).
Proof. vm_compute. reflexivity. Qed.

(** * The two readings together *)

(** C1. When root and end coincide the axis [line = end - root] is null,
    [line . line == 0], and the function raises [ZeroDivisionError]
    instead of returning: in exact arithmetic for every position, in
    binary64 for every position of finite coordinates.  The scene is
    untouched. *)
Theorem coincident_root_end_raises :
  (forall (NN : NormalOfNull R) (root_pos mid_pos : xyz R) (multiplier : R)
          (s : Scene R),
     get_pole_vec_pos root_pos mid_pos root_pos multiplier s =
     (Raise ZeroDivisionError, s)) /\
  (forall (NN : NormalOfNull float) (root_pos mid_pos : xyz float)
          (multiplier : float) (s : Scene float),
     finite_xyz root_pos = true ->
     get_pole_vec_pos root_pos mid_pos root_pos multiplier s =
     (Raise ZeroDivisionError, s)).
Proof.
  split; intros.
  - apply get_pole_vec_pos_zero_axis, Exact.axis_null.
  - apply get_pole_vec_pos_zero_axis, Binary64.axis_zero. assumption.
Qed.

(** C1, with root and end at [(1,2,3)] in binary64. *)
Lemma coincident_root_end_raises_witness :
  finite_xyz (1, 2, 3)%float = true /\
  get_pole_vec_pos (1, 2, 3)%float (0, 1, 0)%float (1, 2, 3)%float 1%float
                   empty_scene =
  (Raise ZeroDivisionError, empty_scene).
Proof.
  split; [vm_compute; reflexivity |].
  apply (proj2 coincident_root_end_raises). vm_compute. reflexivity.
Defined.

(** C9. The scenario of the specification, root [(0,0,0)], mid [(0,1,0)],
    end [(2,0,0)], multiplier [1]: [line = (2,0,0)], [t = 0],
    [closest = (0,0,0)], [total_length = 1 + sqrt 5],
    [offset_dir = (0,1,0)], and the result is within [1e-4] of
    [(0, 4.236, 0)]; in exact arithmetic, where it is [(0, 2 + sqrt 5, 0)],
    and as binary64 runs it. *)
Theorem scenario_of_the_specification :
  (forall (NN : NormalOfNull R) (s : Scene R),
     line_of (0, 0, 0)%R (2, 0, 0)%R = mkMVector 2 0 0 /\
     source_point_of (0, 0, 0)%R (0, 1, 0)%R = mkMVector 0 1 0 /\
     closest_point_scale_val_of (0, 0, 0)%R (0, 1, 0)%R (2, 0, 0)%R = Ok 0 /\
     closest_mid_point_of (0, 0, 0)%R (2, 0, 0)%R 0 = mkMVector 0 0 0 /\
     total_mag_of (0, 0, 0)%R (0, 1, 0)%R (2, 0, 0)%R 1 = 1 + sqrt 5 /\
     offset_dir_of (0, 0, 0)%R (0, 1, 0)%R (2, 0, 0)%R 0 = mkMVector 0 1 0 /\
     value (get_pole_vec_pos (0, 0, 0)%R (0, 1, 0)%R (2, 0, 0)%R 1) s =
       Ok (mkMVector 0 (2 + sqrt 5) 0) /\
     Rabs (2 + sqrt 5 - 4.236) <= 1e-4)%R /\
  (forall (NN : NormalOfNull float) (s : Scene float),
     line_of (0, 0, 0) (2, 0, 0) = mkMVector 2 0 0 /\
     source_point_of (0, 0, 0) (0, 1, 0) = mkMVector 0 1 0 /\
     closest_point_scale_val_of (0, 0, 0) (0, 1, 0) (2, 0, 0) = Ok 0 /\
     closest_mid_point_of (0, 0, 0) (2, 0, 0) 0 = mkMVector 0 0 0 /\
     total_mag_of (0, 0, 0) (0, 1, 0) (2, 0, 0) 1 =
       PrimFloat.add 1 (PrimFloat.sqrt 5) /\
     offset_dir_of (0, 0, 0) (0, 1, 0) (2, 0, 0) 0 = mkMVector 0 1 0 /\
     exists p,
       value (get_pole_vec_pos (0, 0, 0) (0, 1, 0) (2, 0, 0) 1) s = Ok p /\
       within 1e-4 (vx p) 0 = true /\
       within 1e-4 (vy p) 4.236 = true /\
       within 1e-4 (vz p) 0 = true)%float.
Proof.
  split; intros.
  - apply Exact.scenario_exact.
  - apply Binary64.scenario_run.
Qed.

(** * The host commands and [place_locator] *)

Section Host.

Context {F : Type} {SF : Scalar F} {NN : NormalOfNull F}.

Implicit Types (s : Scene F) (name : string).

(** Locator names do not collide. *)
Lemma locator_name_inj (n m : nat) :
  locator_name n = locator_name m -> n = m.
Proof.
  unfold locator_name. cbn [String.append]. intros H.
  injection H as H.
  apply (f_equal NilEmpty.uint_of_string) in H.
  rewrite !NilEmpty.usu in H. injection H as H.
  apply (f_equal Nat.of_uint) in H.
  rewrite !DecimalNat.Unsigned.of_to in H. exact H.
Qed.

Lemma taken_iff (used : list string) (n : nat) :
  existsb (String.eqb (locator_name n)) used = true <->
  In (locator_name n) used.
Proof.
  rewrite existsb_exists. split.
  - intros [x [Hin Hx]]. apply String.eqb_eq in Hx. subst. exact Hin.
  - intros Hin. exists (locator_name n). split; [exact Hin |].
    apply String.eqb_refl.
Qed.

(** The search stops on the first free name: it skips [j] taken names,
    and unless the fuel ran out the name it stops on is free. *)
Lemma first_free_skips (used : list string) (fuel n : nat) :
  exists j,
    (j <= fuel)%nat /\
    first_free used n fuel = locator_name (n + j) /\
    (forall i, (i < j)%nat -> In (locator_name (n + i)) used) /\
    ((j < fuel)%nat -> ~ In (locator_name (n + j)) used).
Proof.
  revert n. induction fuel as [| fuel IH]; intros n.
  - exists 0%nat. rewrite Nat.add_0_r.
    split; [lia |]. split; [reflexivity |]. split; intros; lia.
  - cbn [first_free].
    destruct (existsb (String.eqb (locator_name n)) used) eqn:Htaken.
    + destruct (IH (S n)) as [j [Hle [Heq [Hbelow Hfree]]]].
      exists (S j). rewrite <- Nat.add_succ_comm.
      split; [lia |]. split; [exact Heq |]. split.
      * intros [| i] Hi.
        -- rewrite Nat.add_0_r. apply taken_iff, Htaken.
        -- rewrite <- Nat.add_succ_comm. apply Hbelow. lia.
      * intros Hlt. apply Hfree. lia.
    + exists 0%nat. rewrite Nat.add_0_r.
      split; [lia |]. split; [reflexivity |]. split.
      * intros i Hi; lia.
      * intros _ Hin. apply taken_iff in Hin. congruence.
Qed.

(** With as much fuel as there are names, the name found is free. *)
Lemma first_free_fresh (used : list string) (n : nat) :
  ~ In (first_free used n (List.length used)) used.
Proof.
  destruct (first_free_skips used (List.length used) n)
    as [j [Hle [Heq [Hbelow Hfree]]]].
  rewrite Heq. intros Hin.
  destruct (Nat.eq_dec j (List.length used)) as [Hj | Hj];
    [| apply Hfree; [lia | exact Hin]].
  assert (Hnodup : NoDup (map (fun i => locator_name (n + i)) (seq 0 (S j)))).
  { apply Finite.Injective_map_NoDup; [| apply seq_NoDup].
    intros a b Hab. apply locator_name_inj in Hab. lia. }
  assert (Hincl : incl (map (fun i => locator_name (n + i)) (seq 0 (S j))) used).
  { intros x Hx. apply in_map_iff in Hx as [i [Hi Hrange]]. subst x.
    apply in_seq in Hrange.
    destruct (Nat.eq_dec i j) as [-> | Hne]; [exact Hin |].
    apply Hbelow. lia. }
  pose proof (NoDup_incl_length Hnodup Hincl) as Hlen.
  rewrite length_map, length_seq in Hlen. lia.
Qed.

Lemma next_locator_fresh s :
  ~ In (next_locator s) (map node_name (nodes s)).
Proof. apply first_free_fresh. Qed.

(** A name no node carries finds nothing, and finds the node appended
    under it. *)
Lemma find_fresh (name : string) (l : list (Node F)) :
  ~ In name (map node_name l) ->
  find (fun n => String.eqb (node_name n) name) l = None.
Proof.
  induction l as [| x l IH]; intros Hfresh; [reflexivity |].
  cbn [find]. destruct (String.eqb_spec (node_name x) name) as [E | _].
  - exfalso. apply Hfresh. left. exact E.
  - apply IH. intros Hin. apply Hfresh. right. exact Hin.
Qed.

Lemma find_appended (name : string) (l : list (Node F)) (x : Node F) :
  ~ In name (map node_name l) -> node_name x = name ->
  find (fun n => String.eqb (node_name n) name) (l ++ [x]) = Some x.
Proof.
  induction l as [| y l IH]; intros Hfresh Hx.
  - cbn [app find]. rewrite Hx, String.eqb_refl. reflexivity.
  - cbn [app find]. destruct (String.eqb_spec (node_name y) name) as [E | _].
    + exfalso. apply Hfresh. left. exact E.
    + apply IH; [| exact Hx]. intros Hin. apply Hfresh. right. exact Hin.
Qed.

(** What is found in a list is found in the list extended. *)
Lemma find_extended (f : Node F -> bool) (l l' : list (Node F)) (n : Node F) :
  find f l = Some n -> find f (l ++ l') = Some n.
Proof.
  induction l as [| y l IH]; [discriminate |].
  cbn [app find]. destruct (f y); [trivial | exact IH].
Qed.

(** Moving the node of a fresh name leaves the others where they are. *)
Lemma move_fresh (name : string) (p : xyz F) (l : list (Node F)) :
  ~ In name (map node_name l) ->
  map (fun n => if String.eqb (node_name n) name
                then mkNode (node_name n) (node_type n) p else n) l = l.
Proof.
  induction l as [| y l IH]; intros Hfresh; [reflexivity |].
  cbn [map]. destruct (String.eqb_spec (node_name y) name) as [E | _].
  - exfalso. apply Hfresh. left. exact E.
  - f_equal. apply IH. intros Hin. apply Hfresh. right. exact Hin.
Qed.

(** [place_locator], run: it cannot fail, and the scene it leaves has the
    nodes it found, then the new locator at the position, selected. *)
Lemma place_locator_run (position : MVector F) s :
  place_locator position s =
  (Ok (next_locator s), with_locator (next_locator s) (coords position) s).
Proof.
  pose proof (next_locator_fresh s) as Hfresh.
  unfold place_locator, bind, spaceLocator, item0, ret.
  fold (coords position). fold (next_locator s). set (name := next_locator s) in *.
  unfold xform_translation, find_node. cbn [nodes selection info].
  rewrite (@find_appended name (nodes s)
             (mkNode name Locator (fzero, fzero, fzero)) Hfresh eq_refl).
  unfold select, find_node. cbn [nodes selection info].
  rewrite map_app, (@move_fresh name (coords position) (nodes s) Hfresh).
  cbn [map node_name node_type]. rewrite String.eqb_refl.
  rewrite (@find_appended name (nodes s)
             (mkNode name Locator (coords position)) Hfresh eq_refl).
  reflexivity.
Qed.

(** X13. [get_pole_vec_pos] creates, moves and selects nothing: nodes
    and selection are as before whatever the outcome.  When it returns it
    has printed one line, the coordinates it returns; when it raises, the
    exception is [ZeroDivisionError] and nothing was printed. *)
Theorem get_pole_vec_pos_effects (root_pos mid_pos end_pos : xyz F)
        (multiplier : F) s :
  nodes (after (get_pole_vec_pos root_pos mid_pos end_pos multiplier) s) =
    nodes s /\
  selection (after (get_pole_vec_pos root_pos mid_pos end_pos multiplier) s) =
    selection s /\
  match value (get_pole_vec_pos root_pos mid_pos end_pos multiplier) s with
  | Ok p =>
      info (after (get_pole_vec_pos root_pos mid_pos end_pos multiplier) s) =
      (vx p, vy p, vz p) :: info s
  | Raise e =>
      e = ZeroDivisionError /\
      info (after (get_pole_vec_pos root_pos mid_pos end_pos multiplier) s) =
      info s
  end.
Proof.
  unfold value, after. rewrite get_pole_vec_pos_eq.
  unfold closest_point_scale_val_of, truediv.
  destruct (is_zero _); cbn [fst snd printed nodes selection info];
    repeat split.
Qed.

(** X1. [place_locator] cannot fail: on every scene it returns a name no
    node carried, and leaves a locator of that name at the position asked
    for, as the whole selection. *)
Theorem place_locator_places (position : MVector F) s :
  exists name,
    ~ In name (map node_name (nodes s)) /\
    value (place_locator position) s = Ok name /\
    find_node name (after (place_locator position) s) =
      Some (mkNode name Locator (vx position, vy position, vz position)) /\
    selection (after (place_locator position) s) = [name].
Proof.
  exists (next_locator s). unfold value, after. rewrite place_locator_run.
  cbn [fst snd]. pose proof (next_locator_fresh s) as Hfresh.
  split; [exact Hfresh |]. split; [reflexivity |]. split; [| reflexivity].
  unfold find_node, with_locator. cbn [nodes].
  apply find_appended; [exact Hfresh | reflexivity].
Qed.

(** X2. [place_locator] adds one node and touches nothing else: the nodes
    of the scene are those it found followed by the new locator, every
    name that was there still finds the same node, and nothing is printed. *)
Theorem place_locator_frame (position : MVector F) s :
  (exists new, nodes (after (place_locator position) s) = nodes s ++ [new] /\
               node_type new = Locator) /\
  (forall name n, find_node name s = Some n ->
                  find_node name (after (place_locator position) s) = Some n) /\
  info (after (place_locator position) s) = info s.
Proof.
  unfold after. rewrite place_locator_run. cbn [snd].
  unfold with_locator. cbn [nodes info].
  split; [eexists; split; reflexivity |]. split; [| reflexivity].
  intros name n Hfind. unfold find_node in *. cbn [nodes].
  apply find_extended, Hfind.
Qed.

(** ** [main] *)

(** A selected node of a type is a node of the scene, of that type. *)
Lemma selected_found (ty : NodeType) s name :
  In name (selected ty s) ->
  exists n, find_node name s = Some n /\ node_type n = ty.
Proof.
  unfold selected. intros Hin. apply filter_In in Hin as [_ Hty].
  destruct (find_node name s) as [n |]; [| discriminate].
  exists n. split; [reflexivity |].
  destruct (node_type n), ty; try discriminate; reflexivity.
Qed.

Lemma selected_position (ty : NodeType) s name :
  In name (selected ty s) -> exists p, position_of name s = Some p.
Proof.
  intros Hin. apply selected_found in Hin as [n [Hfind _]].
  exists (node_pos n). unfold position_of. rewrite Hfind. reflexivity.
Qed.

(** Querying the position of a node that is there returns it and leaves
    the scene alone. *)
Lemma xform_query_run name p s :
  position_of name s = Some p -> xform_query name s = (Ok p, s).
Proof.
  unfold position_of, xform_query. destruct (find_node name s) as [n |];
    [| discriminate].
  cbn [option_map]. intros H. injection H as <-. reflexivity.
Qed.

(** Sequencing: a command that returns hands its value and scene on; one
    that raises stops the sequence there. *)
Lemma bind_ok {A B} (m : Maya F A) (f : A -> Maya F B) s (a : A) s' :
  m s = (Ok a, s') -> bind m f s = f a s'.
Proof. unfold bind. intros ->. reflexivity. Qed.

Lemma bind_raise {A B} (m : Maya F A) (f : A -> Maya F B) s (e : Exn) s' :
  m s = (Raise e, s') -> bind m f s = (Raise e, s').
Proof. unfold bind. intros ->. reflexivity. Qed.

(** The comprehension over nodes that are there returns their positions,
    in order, and leaves the scene alone. *)
Lemma for_each_xform_query (names : list string) (ps : list (xyz F)) s :
  Forall2 (fun name p => position_of name s = Some p) names ps ->
  for_each xform_query names s = (Ok ps, s).
Proof.
  induction 1 as [| name p names ps Hp _ IH]; [reflexivity |].
  cbn [for_each].
  erewrite bind_ok; [| apply xform_query_run; exact Hp].
  erewrite bind_ok; [| exact IH].
  reflexivity.
Qed.

(** [main] on three selected joints, run: the positions are read in
    selection order, the pole is computed with multiplier [1], printed,
    and a locator placed there; the division is the only thing that can
    stop it. *)
Lemma main_three_joints s (root mid end_ : string) (root_pos mid_pos end_pos : xyz F) :
  selected Joint s = [root; mid; end_] ->
  position_of root s = Some root_pos ->
  position_of mid s = Some mid_pos ->
  position_of end_ s = Some end_pos ->
  main s =
  match closest_point_scale_val_of root_pos mid_pos end_pos with
  | Ok t =>
      let p := pole_vector_of root_pos mid_pos end_pos fone t in
      (Ok tt, with_locator (next_locator s) (coords p) (printed p s))
  | Raise e => (Raise e, s)
  end.
Proof.
  intros Hsel Hr Hm He. unfold main.
  erewrite bind_ok; [| reflexivity]. rewrite Hsel.
  cbn [List.length Nat.eqb negb].
  erewrite bind_ok; [| reflexivity].
  erewrite bind_ok;
    [| apply for_each_xform_query; repeat constructor; eassumption].
  cbn [get_pole_vec_pos_star].
  pose proof (get_pole_vec_pos_eq root_pos mid_pos end_pos fone s) as Hpole.
  destruct (closest_point_scale_val_of root_pos mid_pos end_pos) as [t | e].
  - cbv zeta in *. erewrite bind_ok; [| exact Hpole].
    erewrite bind_ok; [| apply place_locator_run].
    reflexivity.
  - erewrite bind_raise; [| exact Hpole]. reflexivity.
Qed.

(** Three selected joints have positions. *)
Lemma three_joints_positions s (root mid end_ : string) :
  selected Joint s = [root; mid; end_] ->
  exists root_pos mid_pos end_pos,
    position_of root s = Some root_pos /\
    position_of mid s = Some mid_pos /\
    position_of end_ s = Some end_pos.
Proof.
  intros Hsel.
  destruct (@selected_position Joint s root) as [pr Hr];
    [rewrite Hsel; cbn; auto |].
  destruct (@selected_position Joint s mid) as [pm Hm];
    [rewrite Hsel; cbn; auto |].
  destruct (@selected_position Joint s end_) as [pe He];
    [rewrite Hsel; cbn; auto |].
  exists pr, pm, pe. auto.
Qed.

Lemma three_or_not {A} (l : list A) :
  List.length l <> 3%nat \/ exists a b c, l = [a; b; c].
Proof.
  destruct l as [| a [| b [| c [| d l]]]]; cbn [List.length];
    try (left; lia).
  right. exists a, b, c. reflexivity.
Qed.

(** Once a locator is placed and selected, no joint is selected. *)
Lemma selected_with_locator (name : string) (p : xyz F) s :
  ~ In name (map node_name (nodes s)) ->
  selected Joint (with_locator name p s) = [].
Proof.
  intros Hfresh. unfold selected, with_locator, find_node.
  cbn [selection nodes filter].
  rewrite (@find_appended name (nodes s) (mkNode name Locator p) Hfresh eq_refl).
  reflexivity.
Qed.

(** X3. With three joints selected and an axis whose squared length does
    not compare equal to zero, [main] returns; it has printed the pole of
    the three joint positions for multiplier [1], taken in selection
    order, and left one new locator there, selected. *)
Theorem main_places_pole s (root mid end_ : string)
        (root_pos mid_pos end_pos : xyz F) :
  selected Joint s = [root; mid; end_] ->
  position_of root s = Some root_pos ->
  position_of mid s = Some mid_pos ->
  position_of end_ s = Some end_pos ->
  is_zero (dot (line_of root_pos end_pos) (line_of root_pos end_pos)) = false ->
  let t := fdiv (dot (line_of root_pos end_pos)
                     (source_point_of root_pos mid_pos))
                (dot (line_of root_pos end_pos) (line_of root_pos end_pos)) in
  let p := pole_vector_of root_pos mid_pos end_pos fone t in
  exists name,
    ~ In name (map node_name (nodes s)) /\
    main s =
    (Ok tt,
     mkScene (nodes s ++ [mkNode name Locator (vx p, vy p, vz p)])
             [name]
             ((vx p, vy p, vz p) :: info s)).
Proof.
  intros Hsel Hr Hm He Hz t p. exists (next_locator s).
  split; [apply next_locator_fresh |].
  rewrite (main_three_joints _ Hsel Hr Hm He).
  unfold closest_point_scale_val_of, truediv. rewrite Hz. reflexivity.
Qed.

(** X9. End to end, in any arithmetic whose addition commutes, binary64
    included: with three joints selected, an axis whose squared length
    does not compare equal to zero and a computed [mid - closest] whose
    length does not either, [main] prints
    [mid + normalize(mid - closest) * (|mid - root| + |end - mid|) * 1]
    and leaves one new locator there, selected. *)
Theorem main_places_formula_pole s (root mid end_ : string)
        (root_pos mid_pos end_pos : xyz F) :
  (forall a b : F, fadd a b = fadd b a) ->
  selected Joint s = [root; mid; end_] ->
  position_of root s = Some root_pos ->
  position_of mid s = Some mid_pos ->
  position_of end_ s = Some end_pos ->
  is_zero (dot (line_of root_pos end_pos) (line_of root_pos end_pos)) = false ->
  is_zero (length (vsub (MVector_of mid_pos)
                        (formula_closest (MVector_of root_pos)
                                         (MVector_of mid_pos)
                                         (MVector_of end_pos)))) = false ->
  let p := formula_pole (MVector_of root_pos) (MVector_of mid_pos)
                        (MVector_of end_pos) fone in
  exists name,
    ~ In name (map node_name (nodes s)) /\
    main s =
    (Ok tt,
     mkScene (nodes s ++ [mkNode name Locator (vx p, vy p, vz p)])
             [name]
             ((vx p, vy p, vz p) :: info s)).
Proof.
  intros Hcomm Hsel Hr Hm He Hz Hlen p. exists (next_locator s).
  split; [apply next_locator_fresh |].
  rewrite (main_three_joints _ Hsel Hr Hm He).
  unfold closest_point_scale_val_of, truediv. rewrite Hz.
  rewrite (pole_vector_of_formula Hcomm) by exact Hlen. reflexivity.
Qed.

(** X4. With three joints selected and an axis whose squared length
    compares equal to zero, [main] raises [ZeroDivisionError] and the
    scene is as it was: nothing printed, no locator, the selection kept. *)
Theorem main_zero_axis s (root mid end_ : string)
        (root_pos mid_pos end_pos : xyz F) :
  selected Joint s = [root; mid; end_] ->
  position_of root s = Some root_pos ->
  position_of mid s = Some mid_pos ->
  position_of end_ s = Some end_pos ->
  is_zero (dot (line_of root_pos end_pos) (line_of root_pos end_pos)) = true ->
  main s = (Raise ZeroDivisionError, s).
Proof.
  intros Hsel Hr Hm He Hz.
  rewrite (main_three_joints _ Hsel Hr Hm He).
  unfold closest_point_scale_val_of, truediv. rewrite Hz. reflexivity.
Qed.

(** X5. [main] ends in one of three ways, on every scene: the error of
    [cmds.error] or [ZeroDivisionError], the scene untouched; or success,
    with exactly one node more, a locator of a name not used before,
    selected, and its position printed.  No other exception escapes and
    no existing node is renamed, moved or removed. *)
Theorem main_outcomes s :
  main s = (Raise (RuntimeError "Select three joints"), s) \/
  main s = (Raise ZeroDivisionError, s) \/
  exists name p,
    ~ In name (map node_name (nodes s)) /\
    main s =
    (Ok tt, mkScene (nodes s ++ [mkNode name Locator p]) [name] (p :: info s)).
Proof.
  destruct (three_or_not (selected Joint s)) as [Hn | [a [b [c Hsel]]]].
  - left. apply main_wrong_count, Hn.
  - destruct (three_joints_positions _ Hsel) as [pa [pb [pc [Ha [Hb Hc]]]]].
    rewrite (main_three_joints _ Hsel Ha Hb Hc).
    unfold closest_point_scale_val_of, truediv.
    destruct (is_zero _).
    + right. left. reflexivity.
    + right. right. eexists. eexists.
      split; [apply next_locator_fresh | reflexivity].
Qed.

(** X6. [main] is not repeatable as it stands: after a run that
    succeeded the selection is the new locator, so a second run stops at
    [cmds.error] and changes nothing. *)
Theorem main_twice s :
  value main s = Ok tt ->
  main (after main s) =
  (Raise (RuntimeError "Select three joints"), after main s).
Proof.
  unfold value, after. intros Hok.
  destruct (three_or_not (selected Joint s)) as [Hn | [a [b [c Hsel]]]].
  - rewrite main_wrong_count in Hok by exact Hn. discriminate.
  - destruct (three_joints_positions _ Hsel) as [pa [pb [pc [Ha [Hb Hc]]]]].
    rewrite (main_three_joints _ Hsel Ha Hb Hc) in *.
    destruct (closest_point_scale_val_of pa pb pc) as [t | e];
      [| discriminate].
    cbv zeta. cbn [snd]. apply main_wrong_count.
    rewrite selected_with_locator; [cbn; lia |].
    apply (next_locator_fresh (printed _ s)).
Qed.

End Host.

(** X3, on the rig. *)
Lemma main_places_pole_witness :
  selected Joint rig_selected = ["shoulder"; "elbow"; "wrist"]%string /\
  position_of "shoulder" rig_selected = Some (0, 0, 0)%float /\
  position_of "elbow" rig_selected = Some (0, 1, 0)%float /\
  position_of "wrist" rig_selected = Some (2, 0, 0)%float /\
  is_zero (dot (line_of (0, 0, 0)%float (2, 0, 0)%float)
               (line_of (0, 0, 0)%float (2, 0, 0)%float)) = false /\
  let t := fdiv (dot (line_of (0, 0, 0)%float (2, 0, 0)%float)
                     (source_point_of (0, 0, 0)%float (0, 1, 0)%float))
                (dot (line_of (0, 0, 0)%float (2, 0, 0)%float)
                     (line_of (0, 0, 0)%float (2, 0, 0)%float)) in
  let p := pole_vector_of (0, 0, 0)%float (0, 1, 0)%float (2, 0, 0)%float
                          fone t in
  exists name,
    ~ In name (map node_name (nodes rig_selected)) /\
    main rig_selected =
    (Ok tt,
     mkScene (nodes rig_selected ++ [mkNode name Locator (vx p, vy p, vz p)])
             [name]
             ((vx p, vy p, vz p) :: info rig_selected)).
Proof.
  repeat (split; [vm_compute; reflexivity |]).
  apply (@main_places_pole float _ _ rig_selected "shoulder" "elbow" "wrist"
           (0, 0, 0)%float (0, 1, 0)%float (2, 0, 0)%float);
    vm_compute; reflexivity.
Defined.

(** X4, on the folded chain. *)
Lemma main_zero_axis_witness :
  selected Joint folded_selected = ["shoulder"; "elbow"; "wrist"]%string /\
  position_of "shoulder" folded_selected = Some (0, 0, 0)%float /\
  position_of "elbow" folded_selected = Some (0, 1, 0)%float /\
  position_of "wrist" folded_selected = Some (0, 0, 0)%float /\
  is_zero (dot (line_of (0, 0, 0)%float (0, 0, 0)%float)
               (line_of (0, 0, 0)%float (0, 0, 0)%float)) = true /\
  main folded_selected = (Raise ZeroDivisionError, folded_selected).
Proof.
  repeat (split; [vm_compute; reflexivity |]).
  apply (@main_zero_axis float _ _ folded_selected "shoulder" "elbow" "wrist"
           (0, 0, 0)%float (0, 1, 0)%float (0, 0, 0)%float);
    vm_compute; reflexivity.
Defined.

(** X6, on the rig. *)
Lemma main_twice_witness :
  value main rig_selected = Ok tt /\
  main (after main rig_selected) =
  (Raise (RuntimeError "Select three joints"), after main rig_selected).
Proof.
  split; [vm_compute; reflexivity |].
  apply (@main_twice float _ _ rig_selected). vm_compute. reflexivity.
Defined.

(** X9, on the rig. *)
Lemma main_places_formula_pole_witness :
  (forall a b : float, fadd a b = fadd b a) /\
  selected Joint rig_selected = ["shoulder"; "elbow"; "wrist"]%string /\
  position_of "shoulder" rig_selected = Some (0, 0, 0)%float /\
  position_of "elbow" rig_selected = Some (0, 1, 0)%float /\
  position_of "wrist" rig_selected = Some (2, 0, 0)%float /\
  is_zero (dot (line_of (0, 0, 0)%float (2, 0, 0)%float)
               (line_of (0, 0, 0)%float (2, 0, 0)%float)) = false /\
  is_zero (length (vsub (MVector_of (0, 1, 0)%float)
                        (formula_closest (MVector_of (0, 0, 0)%float)
                                         (MVector_of (0, 1, 0)%float)
                                         (MVector_of (2, 0, 0)%float)))) =
  false /\
  let p := formula_pole (MVector_of (0, 0, 0)%float)
                        (MVector_of (0, 1, 0)%float)
                        (MVector_of (2, 0, 0)%float) fone in
  exists name,
    ~ In name (map node_name (nodes rig_selected)) /\
    main rig_selected =
    (Ok tt,
     mkScene (nodes rig_selected ++ [mkNode name Locator (vx p, vy p, vz p)])
             [name]
             ((vx p, vy p, vz p) :: info rig_selected)).
Proof.
  split; [intros a b; apply Binary64.float_add_comm |].
  repeat (split; [vm_compute; reflexivity |]).
  apply (@main_places_formula_pole float float_Scalar maya_normal_of_null
           rig_selected "shoulder" "elbow" "wrist"
           (0, 0, 0)%float (0, 1, 0)%float (2, 0, 0)%float
           Binary64.float_add_comm);
    vm_compute; reflexivity.
Defined.
